(** * VidSync chat socket server: presence registry and event router

    A shallow embedding of [src/api/index.ts]: the [connection] handler,
    the four listeners it installs on a socket ([joinRoom], [leaveRoom],
    [chat:message], [disconnect]), the two module-level stores they share
    ([onlineUsers], [roomUsers]), the per-socket [socket.data], and the
    list of allowed origins that the module computes when it is loaded.

    Conventions of the model.
    - A JavaScript string is a [string]; each character stands for one
      code unit in the range 0..255.
    - An event argument is a [JsVal]: a JSON value, or [JUndefined] for an
      argument the client did not send.  A number is an integer [n] of
      magnitude below 10^21, the numbers that JavaScript prints as plain
      decimal digits; fractions are left out.
    - A listener is a [Handler]: a function from the stores to a
      completion (normal, or a thrown error), the stores as the listener
      left them, and the calls it made on the transport and the console,
      in order.  A broadcast carries the value its argument has at the
      call.
    - The clock and the global scope of the host are inputs. *)

From Stdlib Require Import Ascii.
From stdpp Require Import gmap strings list pretty.

#[local] Set Warnings "-register-all".

Open Scope string_scope.
Open Scope list_scope.
Open Scope stdpp_scope.

(** ** Completions *)

Inductive JsError : Set :=
  | ReferenceError
  | TypeError.

Inductive Completion (A : Type) : Type :=
  | Normal (a : A)
  | Abrupt (e : JsError).

Arguments Normal {A} a.
Arguments Abrupt {A} e.

Definition thenC {A B : Type} (c : Completion A) (k : A → Completion B)
  : Completion B :=
  match c with
  | Normal a => k a
  | Abrupt e => Abrupt e
  end.

Definition mapC {A B : Type} (f : A → B) (c : Completion A) : Completion B :=
  thenC c (λ a, Normal (f a)).

(** ** Values carried by events *)

Inductive JsVal : Type :=
  | JUndefined
  | JNull
  | JBool (b : bool)
  | JNum (n : Z)
  | JStr (s : string)
  | JArr (items : list JsVal)
  | JObj (props : list (string * JsVal)).

(** [x === undefined || x === null], the test behind [??] and [?.]. *)
Definition nullish (v : JsVal) : bool :=
  match v with
  | JUndefined | JNull => true
  | _ => false
  end.

(** [a ?? b]. *)
Definition coalesce (a b : JsVal) : JsVal := if nullish a then b else a.

Infix "??" := coalesce (at level 45, right associativity).

(** Truthiness of a string: [!s] holds exactly for the empty string. *)
Definition truthyStr (s : string) : bool :=
  match s with
  | EmptyString => false
  | String _ _ => true
  end.

(** Truthiness of a value ([!v], [if (v)]). *)
Definition truthy (v : JsVal) : bool :=
  match v with
  | JUndefined | JNull => false
  | JBool b => b
  | JNum n => negb (n =? 0)%Z
  | JStr s => truthyStr s
  | JArr _ | JObj _ => true
  end.

(** Own property of a parsed object; keys are unique after parsing. *)
Fixpoint ownProp (props : list (string * JsVal)) (k : string) : option JsVal :=
  match props with
  | [] => None
  | (k', v) :: rest => if String.eqb k' k then Some v else ownProp rest k
  end.

(** [v.k] on a value that is neither [undefined] nor [null], for the keys
    the handlers read ([uid], [userId], [id], [message], [room],
    [timestamp], [clientId]): none of them is defined by a built-in
    prototype, so only an own property of an object can answer. *)
Definition getProp (v : JsVal) (k : string) : JsVal :=
  match v with
  | JObj props => default JUndefined (ownProp props k)
  | _ => JUndefined
  end.

(** [v.k]: reading a property of [undefined] or [null] throws. *)
Definition member (v : JsVal) (k : string) : Completion JsVal :=
  if nullish v then Abrupt TypeError else Normal (getProp v k).

(** [v?.k]. *)
Definition optMember (v : JsVal) (k : string) : JsVal :=
  if nullish v then JUndefined else getProp v k.

(** The conversion [ToString], as [String(v)] and property keys apply it.
    An array joins its elements with commas, [undefined] and [null]
    elements printing as nothing.  An object parsed from the wire has no
    callable property of its own: with an own [toString] the conversion
    finds nothing to call and throws, without one it reaches
    [Object.prototype.toString]. *)
Fixpoint toStr (v : JsVal) : Completion string :=
  match v with
  | JUndefined => Normal "undefined"
  | JNull => Normal "null"
  | JBool true => Normal "true"
  | JBool false => Normal "false"
  | JNum n => Normal (pretty n)
  | JStr s => Normal s
  | JArr items =>
      (fix join (l : list JsVal) : Completion string :=
         match l with
         | [] => Normal ""
         | x :: rest =>
             thenC (if nullish x then Normal "" else toStr x) (λ e,
             match rest with
             | [] => Normal e
             | _ :: _ => thenC (join rest) (λ r, Normal (e +:+ "," +:+ r))
             end)
         end) items
  | JObj props =>
      match ownProp props "toString" with
      | Some _ => Abrupt TypeError
      | None => Normal "[object Object]"
      end
  end.

(** The method call [v.toString()]. *)
Definition toStringMethod (v : JsVal) : Completion string :=
  if nullish v then Abrupt TypeError else toStr v.

(** ** [String.prototype.trim] *)

Definition isWhiteSpace (c : ascii) : bool :=
  match N_of_ascii c with
  | 9 | 10 | 11 | 12 | 13 | 32 | 160 => true
  | _ => false
  end%N.

Fixpoint trimStart (s : string) : string :=
  match s with
  | EmptyString => EmptyString
  | String c rest => if isWhiteSpace c then trimStart rest else s
  end.

Fixpoint trimEnd (s : string) : string :=
  match s with
  | EmptyString => EmptyString
  | String c rest =>
      let t := trimEnd rest in
      if isWhiteSpace c && negb (truthyStr t) then EmptyString else String c t
  end.

Definition trim (s : string) : string := trimEnd (trimStart s).

(** [(raw ?? "").toString().trim()], the normalisation that [joinRoom] and
    [leaveRoom] apply to the room and [chat:message] to the message. *)
Definition normalize (raw : JsVal) : Completion string :=
  mapC trim (toStringMethod (raw ?? JStr "")).

(** ** Stores *)

(** [type OnlineUser = { socketId: string; userId: string }]. *)
Record OnlineUser : Type := mkOnlineUser {
  socketId : string;
  userId : string
}.

(** The fields the handlers keep in [socket.data]; [None] is an absent
    property. *)
Record SocketData : Type := mkSocketData {
  data_room : option string;
  data_userId : option string
}.

(** The module-level [onlineUsers] and [roomUsers], and [socket.data] of
    every socket the transport currently holds, by socket id. *)
Record Stores : Type := mkStores {
  onlineUsers : list OnlineUser;
  roomUsers : gmap string (list OnlineUser);
  sockets : gmap string SocketData
}.

Definition initial : Stores :=
  {| onlineUsers := []; roomUsers := ∅; sockets := ∅ |}.

(** The object [chat:message] sends out. *)
Record OutgoingMessage : Type := mkOutgoing {
  msg_userId : JsVal;
  msg_message : string;
  msg_timestamp : JsVal;
  msg_clientId : JsVal
}.

Inductive Payload : Type :=
  | PUsers (users : list OnlineUser)
  | PChat (m : OutgoingMessage).

(** Calls on the transport and the console, as the handlers make them. *)
Inductive Act : Type :=
  | SocketJoin (sid room : string)                    (* socket.join(room) *)
  | SocketLeave (sid room : string)                   (* socket.leave(room) *)
  | EmitAll (event : string) (p : Payload)            (* io.emit(event, p) *)
  | EmitTo (room : JsVal) (event : string) (p : Payload)
                                                      (* io.to(room).emit(event, p) *)
  | ConsoleLog (sid : string) (total : nat)
  | ConsoleWarn (text : string).

(** The host's global scope, as far as the module reads it: the module
    uses the identifier [name] (line 70) and declares none, so the read
    goes to the global object.  Node has no such global; a host that has
    one binds it to a string. *)
Record Host : Type := mkHost {
  global_name : option string
}.

Definition node : Host := {| global_name := None |}.

(** Evaluating the free identifier [name]. *)
Definition readName (h : Host) : Completion string :=
  match global_name h with
  | Some s => Normal s
  | None => Abrupt ReferenceError
  end.

(** ** Handlers *)

Definition Handler (A : Type) : Type :=
  Stores → Completion A * Stores * list Act.

Definition ret {A : Type} (a : A) : Handler A :=
  λ st, (Normal a, st, []).

Definition bind {A B : Type} (m : Handler A) (k : A → Handler B) : Handler B :=
  λ st,
    match m st with
    | (Normal a, st1, t1) =>
        match k a st1 with
        | (c, st2, t2) => (c, st2, t1 ++ t2)
        end
    | (Abrupt e, st1, t1) => (Abrupt e, st1, t1)
    end.

Notation "'let*' x ':=' m 'in' k" := (bind m (λ x, k))
  (at level 10, x name, m at level 100, k at level 200,
   format "'[v' 'let*'  x  ':='  m  'in' '/' k ']'").

Notation "m ';;;' k" := (bind m (λ _, k))
  (at level 100, k at level 200, right associativity,
   format "'[v' m  ';;;' '/' k ']'").

(** A pure computation that may throw. *)
Definition liftC {A : Type} (c : Completion A) : Handler A :=
  λ st, (c, st, []).

Definition gets {A : Type} (f : Stores → A) : Handler A :=
  λ st, (Normal (f st), st, []).

Definition modify (f : Stores → Stores) : Handler unit :=
  λ st, (Normal tt, f st, []).

Definition act (a : Act) : Handler unit :=
  λ st, (Normal tt, st, [a]).

Definition set_onlineUsers (f : list OnlineUser → list OnlineUser)
    (st : Stores) : Stores :=
  {| onlineUsers := f (onlineUsers st);
     roomUsers := roomUsers st;
     sockets := sockets st |}.

(** [roomUsers[room] = users]. *)
Definition set_room (room : string) (users : list OnlineUser)
    (st : Stores) : Stores :=
  {| onlineUsers := onlineUsers st;
     roomUsers := <[room := users]> (roomUsers st);
     sockets := sockets st |}.

(** [socket.data] of socket [sid]; an object without properties until a
    handler writes one. *)
Definition dataOf (st : Stores) (sid : string) : SocketData :=
  default {| data_room := None; data_userId := None |} (sockets st !! sid).

Definition set_data (sid : string) (f : SocketData → SocketData)
    (st : Stores) : Stores :=
  {| onlineUsers := onlineUsers st;
     roomUsers := roomUsers st;
     sockets := <[sid := f (dataOf st sid)]> (sockets st) |}.

Definition with_room (r : option string) (d : SocketData) : SocketData :=
  {| data_room := r; data_userId := data_userId d |}.

Definition with_userId (u : option string) (d : SocketData) : SocketData :=
  {| data_room := data_room d; data_userId := u |}.

(** The member sequence of a room: [roomUsers[room]], an absent entry
    reading as no members. *)
Definition members (st : Stores) (room : string) : list OnlineUser :=
  default [] (roomUsers st !! room).

(** [roomUsers] is a plain object ([{}], line 43), so a key it does not
    own is looked up on [Object.prototype]. *)
Definition objectPrototypeKeys : list string :=
  [ "constructor"; "__defineGetter__"; "__defineSetter__"; "hasOwnProperty";
    "__lookupGetter__"; "__lookupSetter__"; "isPrototypeOf";
    "propertyIsEnumerable"; "toString"; "valueOf"; "__proto__";
    "toLocaleString" ].

Definition inherited (k : string) : bool :=
  bool_decide (k ∈ objectPrototypeKeys).

(** What [roomUsers[room] ?? []] evaluates to: the stored array, the
    fresh empty array, or a member of [Object.prototype] (a function, or
    the prototype itself), which is not nullish and has none of the array
    methods. *)
Inductive RoomValue : Type :=
  | Members (users : list OnlineUser)
  | Foreign.

Definition roomValue (st : Stores) (room : string) : RoomValue :=
  match roomUsers st !! room with
  | Some users => Members users
  | None => if inherited room then Foreign else Members []
  end.

(** [const users = roomUsers[room] ?? []] followed by the array method the
    handler calls on [users] ([findIndex], [filter], [find]): the call
    throws when [users] is not an array. *)
Definition usersOf (room : string) : Handler (list OnlineUser) :=
  λ st,
    match roomValue st room with
    | Members users => (Normal users, st, [])
    | Foreign => (Abrupt TypeError, st, [])
    end.

(** [users.filter(u => u.socketId !== socket.id)]. *)
Definition without (sid : string) (users : list OnlineUser) : list OnlineUser :=
  filter (λ u, socketId u ≠ sid) users.

(** [users.findIndex(u => u.socketId === socket.id)] and
    [users.find(...)]: the first match, with its index. *)
Definition findUser (sid : string) (users : list OnlineUser)
  : option (nat * OnlineUser) :=
  list_find (λ u, socketId u = sid) users.

(** Lines 48-52: the [connection] handler's own statements. *)
Definition onConnection (sid : string) : Handler unit :=
  modify (set_onlineUsers (λ us, us ++ [{| socketId := sid; userId := "" |}])) ;;;
  let* us := gets onlineUsers in
  act (EmitAll "usersOnline" (PUsers us)) ;;;
  act (ConsoleLog sid (length us)).

(** Lines 62-74: the user id that [joinRoom] derives from its second
    argument. *)
Definition resolveUid (h : Host) (sid : string) (userPayload : JsVal)
  : Completion string :=
  thenC
    (if negb (truthy userPayload) then Normal sid
     else
       match userPayload with
       | JStr s => Normal s
       | JObj _ | JArr _ =>
           thenC (toStr (getProp userPayload "uid"
                           ?? getProp userPayload "userId"
                           ?? getProp userPayload "id"
                           ?? JStr "")) (λ uid,
           if negb (truthyStr uid)
           then thenC (readName h) (λ name,
                  Normal (if truthyStr name then name else uid))
           else Normal uid)
       | _ => toStr userPayload
       end) (λ uid,
  Normal (if negb (truthyStr uid) then sid else uid)).

(** Lines 55-90. *)
Definition onJoinRoom (h : Host) (sid : string) (roomRaw userPayload : JsVal)
  : Handler unit :=
  let* room := liftC (normalize roomRaw) in
  if negb (truthyStr room) then ret tt else
  act (SocketJoin sid room) ;;;
  modify (set_data sid (with_room (Some room))) ;;;
  let* uid := liftC (resolveUid h sid userPayload) in
  let* users := usersOf room in
  let entry := {| socketId := sid; userId := uid |} in
  let users' :=
    match findUser sid users with
    | Some (existingIdx, _) => <[existingIdx := entry]> users
    | None => users ++ [entry]
    end in
  modify (set_room room users') ;;;
  modify (set_data sid (with_userId (Some uid))) ;;;
  let* current := gets (λ st, members st room) in
  act (EmitTo (JStr room) "usersOnline" (PUsers current)).

(** Lines 93-104. *)
Definition onLeaveRoom (sid : string) (roomRaw : JsVal) : Handler unit :=
  let* room := liftC (normalize roomRaw) in
  if negb (truthyStr room) then ret tt else
  act (SocketLeave sid room) ;;;
  let* users := usersOf room in
  modify (set_room room (without sid users)) ;;;
  let* current := gets (λ st, members st room) in
  act (EmitTo (JStr room) "usersOnline" (PUsers current)) ;;;
  modify (set_data sid (with_room None)) ;;;
  modify (set_data sid (with_userId None)).

(** [socket.data && socket.data.room] as a value. *)
Definition storedRoom (st : Stores) (sid : string) : JsVal :=
  match data_room (dataOf st sid) with
  | Some r => JStr r
  | None => JUndefined
  end.

(** Lines 107-131; [now] is what [new Date().toISOString()] returns when
    the handler runs. *)
Definition onChatMessage (sid : string) (payload : JsVal) (now : string)
  : Handler unit :=
  let* trimmedMessage := liftC (normalize (optMember payload "message")) in
  if negb (truthyStr trimmedMessage) then ret tt else
  let* payloadRoom := liftC (member payload "room") in
  let* stored := gets (λ st, storedRoom st sid) in
  let room := payloadRoom ?? stored ?? JNull in
  if negb (truthy room)
  then act (ConsoleWarn "chat:message received without room, ignoring") else
  let* key := liftC (toStr room) in
  let* users := usersOf key in
  let sender := snd <$> findUser sid users in
  let outgoingMessage :=
    {| msg_userId :=
         getProp payload "userId"
           ?? from_option (λ u, JStr (userId u)) JUndefined sender
           ?? JStr sid;
       msg_message := trimmedMessage;
       msg_timestamp := getProp payload "timestamp" ?? JStr now;
       msg_clientId := getProp payload "clientId" ?? JUndefined |} in
  act (EmitTo room "chat:message" (PChat outgoingMessage)).

(** Lines 134-148. *)
Definition onDisconnect (sid : string) : Handler unit :=
  modify (set_onlineUsers (without sid)) ;;;
  let* room := gets (λ st, data_room (dataOf st sid)) in
  match room with
  | Some r =>
      if truthyStr r then
        let* users := usersOf r in
        modify (set_room r (without sid users)) ;;;
        let* current := gets (λ st, members st r) in
        act (EmitTo (JStr r) "usersOnline" (PUsers current))
      else ret tt
  | None => ret tt
  end ;;;
  let* us := gets onlineUsers in
  act (EmitAll "usersOnline" (PUsers us)).

(** ** Runs of the server *)

(** What the transport delivers.  [ChatMessage] carries the reading of
    the clock that the handler takes. *)
Inductive Event : Type :=
  | Connect (sid : string)
  | JoinRoom (sid : string) (roomRaw userPayload : JsVal)
  | LeaveRoom (sid : string) (roomRaw : JsVal)
  | ChatMessage (sid : string) (payload : JsVal) (now : string)
  | Disconnect (sid : string).

(** The transport creates the socket, with an empty [data], before it
    calls the [connection] handler, and drops it after [disconnect]. *)
Definition attach (sid : string) : Handler unit :=
  modify (λ st,
    {| onlineUsers := onlineUsers st;
       roomUsers := roomUsers st;
       sockets := <[sid := {| data_room := None; data_userId := None |}]>
                    (sockets st) |}).

Definition detach (sid : string) : Handler unit :=
  modify (λ st,
    {| onlineUsers := onlineUsers st;
       roomUsers := roomUsers st;
       sockets := delete sid (sockets st) |}).

Definition dispatch (h : Host) (ev : Event) : Handler unit :=
  match ev with
  | Connect sid => attach sid ;;; onConnection sid
  | JoinRoom sid roomRaw userPayload => onJoinRoom h sid roomRaw userPayload
  | LeaveRoom sid roomRaw => onLeaveRoom sid roomRaw
  | ChatMessage sid payload now => onChatMessage sid payload now
  | Disconnect sid => onDisconnect sid ;;; detach sid
  end.

Definition connected (st : Stores) (sid : string) : bool :=
  bool_decide (is_Some (sockets st !! sid)).

(** A socket id names one live socket at a time, and the listeners of a
    socket run only while the transport holds it. *)
Definition deliverable (st : Stores) (ev : Event) : bool :=
  match ev with
  | Connect sid => negb (connected st sid)
  | JoinRoom sid _ _ | LeaveRoom sid _ | ChatMessage sid _ _
  | Disconnect sid => connected st sid
  end.

(** The stores a running server can be in.  Nothing in the module catches
    an error that a listener throws, the transport calls the listeners
    unguarded, and no handler is installed on the process: the error ends
    the process, so every event of a run has completed normally. *)
Inductive reachable (h : Host) : Stores → Prop :=
  | reachable_initial : reachable h initial
  | reachable_step (st : Stores) (ev : Event) (st' : Stores) (t : list Act) :
      reachable h st →
      deliverable st ev = true →
      dispatch h ev st = (Normal tt, st', t) →
      reachable h st'.

(** The stores after any sequence of handler runs, completed or not,
    whatever the transport holds: what can be said of these does not
    depend on how the host treats an error. *)
Inductive visited (h : Host) : Stores → Prop :=
  | visited_initial : visited h initial
  | visited_step (st : Stores) (ev : Event) (c : Completion unit)
      (st' : Stores) (t : list Act) :
      visited h st →
      dispatch h ev st = (c, st', t) →
      visited h st'.

(** Running a list of events from given stores: the final stores and
    every call made, or [None] when an event cannot be delivered or its
    handler throws. *)
Fixpoint replay (h : Host) (evs : list Event) (st : Stores)
  : option (Stores * list Act) :=
  match evs with
  | [] => Some (st, [])
  | ev :: rest =>
      if deliverable st ev then
        match dispatch h ev st with
        | (Normal _, st', t) =>
            match replay h rest st' with
            | Some (st'', t') => Some (st'', t ++ t')
            | None => None
            end
        | (Abrupt _, _, _) => None
        end
      else None
  end.

(** ** Predicates the statements use *)

(** The socket ids of a member sequence, in order. *)
Definition socketIds (users : list OnlineUser) : list string :=
  socketId <$> users.

Definition isBroadcast (a : Act) : bool :=
  match a with
  | EmitAll _ _ | EmitTo _ _ _ => true
  | _ => false
  end.

Definition isChatEmit (a : Act) : bool :=
  match a with
  | EmitAll ev _ | EmitTo _ ev _ => String.eqb ev "chat:message"
  | _ => false
  end.

Definition present (v : JsVal) : bool := negb (nullish v).

(** A string of white space only; the empty string is one. *)
Fixpoint blank (s : string) : bool :=
  match s with
  | EmptyString => true
  | String c rest => isWhiteSpace c && blank rest
  end.

(** ** Invariants of a running server *)

(** A room lists a socket id at most once. *)
Definition rooms_unique (st : Stores) : Prop :=
  ∀ room, NoDup (socketIds (members st room)).

(** Every entry of [onlineUsers] has the empty [userId]. *)
Definition global_anonymous (st : Stores) : Prop :=
  Forall (λ u, userId u = "") (onlineUsers st).

(** [onlineUsers] lists exactly the live sockets, each once. *)
Definition global_exact (st : Stores) : Prop :=
  NoDup (socketIds (onlineUsers st)) ∧
  ∀ sid, sid ∈ socketIds (onlineUsers st) ↔ is_Some (sockets st !! sid).

(** The room recorded in [socket.data] is a non-empty name, and the
    socket is a member of it. *)
Definition assigned_present (st : Stores) : Prop :=
  ∀ sid r, data_room (dataOf st sid) = Some r →
    r ≠ "" ∧ sid ∈ socketIds (members st r).

Definition consistent (st : Stores) : Prop :=
  global_exact st ∧ assigned_present st.

Definition invariant (st : Stores) : Prop :=
  rooms_unique st ∧ global_anonymous st ∧ global_exact st ∧
  assigned_present st.

(** ** Sample runs *)

(** The stores after a run from the initial stores. *)
Definition after (h : Host) (evs : list Event) : Stores :=
  match replay h evs initial with
  | Some (st, _) => st
  | None => initial
  end.

(** Two sockets in the room [lobby], the first joined as [bob], the
    second without an identity, and a third socket that joined nothing. *)
Definition lobbyRun : list Event :=
  [ Connect "s1";
    JoinRoom "s1" (JStr "lobby") (JObj [("uid", JStr "bob")]);
    Connect "s2";
    JoinRoom "s2" (JStr " lobby ") JUndefined;
    Connect "s3" ].

Definition lobby : Stores := after node lobbyRun.

(** ** Configuration read at start-up *)

(** Whether the code unit [c] occurs in [s]. *)
Fixpoint occurs (c : ascii) (s : string) : bool :=
  match s with
  | EmptyString => false
  | String d rest => Ascii.eqb d c || occurs c rest
  end.

(** [s.split(sep)] for a separator of one code unit: the pieces between
    the separators, in order; a string without separator is the only
    piece, the empty string included. *)
Fixpoint split (sep : ascii) (s : string) : list string :=
  match s with
  | EmptyString => [EmptyString]
  | String c rest =>
      if Ascii.eqb c sep then EmptyString :: split sep rest
      else
        match split sep rest with
        | [] => [String c EmptyString]
        | piece :: pieces => String c piece :: pieces
        end
  end.

(** [l.join(sep)]. *)
Fixpoint joinWith (sep : string) (l : list string) : string :=
  match l with
  | [] => EmptyString
  | x :: rest =>
      match rest with
      | [] => x
      | _ :: _ => x +:+ sep +:+ joinWith sep rest
      end
  end.

(** Lines 11-14; [envOrigin] is [process.env.ORIGIN], [None] when the
    variable is not set. *)
Definition origins (envOrigin : option string) : list string :=
  filter (λ s, truthyStr s = true)
    (trim <$> split "," (default EmptyString envOrigin)).

(** Line 16. *)
Definition corsOrigins (envOrigin : option string) : list string :=
  match origins envOrigin with
  | [] => ["*"]
  | _ :: _ => origins envOrigin
  end.

(** Line 28: the second line the module writes to the console. *)
Definition originsLine (envOrigin : option string) : string :=
  "Allowed origins: " +:+ joinWith ", " (corsOrigins envOrigin).

(** Whether every code unit of [s] passes the test [f]. *)
Fixpoint every (f : ascii → bool) (s : string) : bool :=
  match s with
  | EmptyString => true
  | String c rest => f c && every f rest
  end.

(** An origin as [origins] keeps it: not empty, without white space at
    either end, without comma. *)
Definition cleanOrigin (o : string) : Prop :=
  o ≠ "" ∧ trim o = o ∧ occurs "," o = false.

(** ** Further invariants *)

(** Every entry of every room passes [P]. *)
Definition all_members (P : OnlineUser → Prop) (st : Stores) : Prop :=
  ∀ room u, u ∈ members st room → P u.

(** Every name under which [roomUsers] has an entry, and every room that
    a [socket.data] records, is a non-empty trimmed string; the names in
    [roomUsers] are none of those that [Object.prototype] defines. *)
Definition keys_canonical (st : Stores) : Prop :=
  (∀ room, is_Some (roomUsers st !! room) →
     room ≠ "" ∧ trim room = room ∧ inherited room = false) ∧
  (∀ sid r, data_room (dataOf st sid) = Some r → r ≠ "" ∧ trim r = r).

(** The user id that [socket.data] records beside a room is the one of
    the socket's entry in that room. *)
Definition assigned_identity (st : Stores) : Prop :=
  ∀ sid r, data_room (dataOf st sid) = Some r →
    ∃ uid, data_userId (dataOf st sid) = Some uid ∧
           {| socketId := sid; userId := uid |} ∈ members st r.

(** ** Proof automation *)

(** Closes a goal whose hypothesis [Hin] lists, among the calls of a
    path, one that the path does not make. *)
Ltac not_called Hin :=
  repeat (apply elem_of_cons in Hin as [?|Hin]; [done|]);
  by apply elem_of_nil in Hin.

(** * Properties *)

(** ** Conversions on sample values *)

Example normalize_spaces : normalize (JStr "  lobby ") = Normal "lobby".
Proof. reflexivity. Qed.

Example normalize_absent : normalize JUndefined = Normal "".
Proof. reflexivity. Qed.

Example normalize_number : normalize (JNum 42) = Normal "42".
Proof. reflexivity. Qed.

Example normalize_array :
  normalize (JArr [JStr "a"; JNull; JNum 3]) = Normal "a,,3".
Proof. reflexivity. Qed.

Example normalize_own_toString :
  normalize (JObj [("toString", JNum 1)]) = Abrupt TypeError.
Proof. reflexivity. Qed.

Example resolveUid_uid_field :
  resolveUid node "s1" (JObj [("uid", JStr "bob")]) = Normal "bob".
Proof. reflexivity. Qed.

Example resolveUid_second_field :
  resolveUid node "s1" (JObj [("id", JNum 7); ("userId", JStr "u")])
  = Normal "u".
Proof. reflexivity. Qed.

Example resolveUid_true : resolveUid node "s1" (JBool true) = Normal "true".
Proof. reflexivity. Qed.

Example resolveUid_zero : resolveUid node "s1" (JNum 0) = Normal "s1".
Proof. reflexivity. Qed.

(** ** Sample runs *)

Example join_round_trip :
  (onJoinRoom node "c" (JStr "A") (JStr "alice") (after node [Connect "c"])).2
  = [ SocketJoin "c" "A";
      EmitTo (JStr "A") "usersOnline"
        (PUsers [{| socketId := "c"; userId := "alice" |}]) ].
Proof. reflexivity. Qed.

Example lobby_members :
  members lobby "lobby"
  = [ {| socketId := "s1"; userId := "bob" |};
      {| socketId := "s2"; userId := "s2" |} ].
Proof. reflexivity. Qed.

Example lobby_online :
  onlineUsers lobby
  = [ {| socketId := "s1"; userId := "" |};
      {| socketId := "s2"; userId := "" |};
      {| socketId := "s3"; userId := "" |} ].
Proof. reflexivity. Qed.

(** A socket that joins a second room stays listed in the first, also
    after it disconnects. *)
Example second_join_keeps_first_room :
  let st := after node [ Connect "c";
                         JoinRoom "c" (JStr "A") JUndefined;
                         JoinRoom "c" (JStr "B") JUndefined;
                         Disconnect "c" ] in
  members st "A" = [{| socketId := "c"; userId := "c" |}] ∧
  members st "B" = [] ∧ onlineUsers st = [].
Proof. by vm_compute. Qed.

(** ** The stores after an update *)

Lemma members_set_room (room : string) (users : list OnlineUser) (st : Stores) :
  members (set_room room users st) room = users.
Proof. unfold members, set_room; simpl. by rewrite lookup_insert_eq. Qed.

Lemma members_set_room_ne (room other : string) (users : list OnlineUser)
    (st : Stores) :
  other ≠ room → members (set_room room users st) other = members st other.
Proof.
  intros Hne. unfold members, set_room; simpl. by rewrite lookup_insert_ne.
Qed.

Lemma members_set_data (sid : string) (f : SocketData → SocketData)
    (st : Stores) (room : string) :
  members (set_data sid f st) room = members st room.
Proof. reflexivity. Qed.

Lemma dataOf_set_data (sid : string) (f : SocketData → SocketData)
    (st : Stores) :
  dataOf (set_data sid f st) sid = f (dataOf st sid).
Proof. unfold dataOf at 1, set_data; simpl. by rewrite lookup_insert_eq. Qed.

Lemma dataOf_set_data_ne (sid other : string) (f : SocketData → SocketData)
    (st : Stores) :
  other ≠ sid → dataOf (set_data sid f st) other = dataOf st other.
Proof.
  intros Hne. unfold dataOf, set_data; simpl. by rewrite lookup_insert_ne.
Qed.

Lemma roomValue_members (st : Stores) (room : string) (users : list OnlineUser) :
  roomValue st room = Members users → members st room = users.
Proof.
  unfold roomValue, members.
  destruct (roomUsers st !! room); simpl; [congruence|].
  destruct (inherited room); congruence.
Qed.

Lemma roomValue_own (st : Stores) (room : string) (users : list OnlineUser) :
  roomUsers st !! room = Some users → roomValue st room = Members users.
Proof. unfold roomValue. by intros ->. Qed.

Lemma roomValue_plain (st : Stores) (room : string) :
  inherited room = false → roomValue st room = Members (members st room).
Proof.
  intros Hplain. unfold roomValue, members.
  destruct (roomUsers st !! room); simpl; [done|]. by rewrite Hplain.
Qed.

Lemma truthyStr_false (s : string) : truthyStr s = false ↔ s = "".
Proof. destruct s; simpl; split; congruence. Qed.

Lemma truthyStr_true (s : string) : truthyStr s = true ↔ s ≠ "".
Proof. destruct s; simpl; split; congruence. Qed.

(** ** Each handler, path by path *)

Lemma onConnection_run (sid : string) (st : Stores) :
  onConnection sid st =
  let us := onlineUsers st ++ [{| socketId := sid; userId := "" |}] in
  (Normal tt,
   set_onlineUsers (λ _, us) st,
   [EmitAll "usersOnline" (PUsers us); ConsoleLog sid (length us)]).
Proof. reflexivity. Qed.

Lemma onJoinRoom_run (h : Host) (sid : string) (roomRaw userPayload : JsVal)
    (st : Stores) :
  onJoinRoom h sid roomRaw userPayload st =
  match normalize roomRaw with
  | Abrupt e => (Abrupt e, st, [])
  | Normal room =>
      if truthyStr room then
        let st1 := set_data sid (with_room (Some room)) st in
        match resolveUid h sid userPayload with
        | Abrupt e => (Abrupt e, st1, [SocketJoin sid room])
        | Normal uid =>
            match roomValue st room with
            | Foreign => (Abrupt TypeError, st1, [SocketJoin sid room])
            | Members users =>
                let entry := {| socketId := sid; userId := uid |} in
                let users' :=
                  match findUser sid users with
                  | Some (i, _) => <[i := entry]> users
                  | None => users ++ [entry]
                  end in
                (Normal tt,
                 set_data sid (with_userId (Some uid)) (set_room room users' st1),
                 [SocketJoin sid room;
                  EmitTo (JStr room) "usersOnline" (PUsers users')])
            end
        end
      else (Normal tt, st, [])
  end.
Proof.
  unfold onJoinRoom, bind, liftC, ret, act, modify, gets, usersOf.
  destruct (normalize roomRaw) as [room|e]; [|done].
  destruct (truthyStr room); [|done]. simpl.
  destruct (resolveUid h sid userPayload) as [uid|e]; [|done].
  change (roomValue (set_data sid (with_room (Some room)) st) room)
    with (roomValue st room).
  destruct (roomValue st room) as [users|]; [|done].
  simpl. by rewrite members_set_data, members_set_room.
Qed.

Lemma onLeaveRoom_run (sid : string) (roomRaw : JsVal) (st : Stores) :
  onLeaveRoom sid roomRaw st =
  match normalize roomRaw with
  | Abrupt e => (Abrupt e, st, [])
  | Normal room =>
      if truthyStr room then
        match roomValue st room with
        | Foreign => (Abrupt TypeError, st, [SocketLeave sid room])
        | Members users =>
            (Normal tt,
             set_data sid (with_userId None)
               (set_data sid (with_room None)
                  (set_room room (without sid users) st)),
             [SocketLeave sid room;
              EmitTo (JStr room) "usersOnline" (PUsers (without sid users))])
        end
      else (Normal tt, st, [])
  end.
Proof.
  unfold onLeaveRoom, bind, liftC, ret, act, modify, gets, usersOf.
  destruct (normalize roomRaw) as [room|e]; [|done].
  destruct (truthyStr room); [|done]. simpl.
  destruct (roomValue st room) as [users|]; [|done].
  simpl. by rewrite members_set_room.
Qed.

Lemma onChatMessage_run (sid : string) (payload : JsVal) (now : string)
    (st : Stores) :
  onChatMessage sid payload now st =
  match normalize (optMember payload "message") with
  | Abrupt e => (Abrupt e, st, [])
  | Normal trimmedMessage =>
      if truthyStr trimmedMessage then
        let room := getProp payload "room" ?? storedRoom st sid ?? JNull in
        if truthy room then
          match toStr room with
          | Abrupt e => (Abrupt e, st, [])
          | Normal key =>
              match roomValue st key with
              | Foreign => (Abrupt TypeError, st, [])
              | Members users =>
                  (Normal tt, st,
                   [EmitTo room "chat:message"
                      (PChat
                         {| msg_userId :=
                              getProp payload "userId"
                                ?? from_option (λ u, JStr (userId u)) JUndefined
                                     (snd <$> findUser sid users)
                                ?? JStr sid;
                            msg_message := trimmedMessage;
                            msg_timestamp :=
                              getProp payload "timestamp" ?? JStr now;
                            msg_clientId :=
                              getProp payload "clientId" ?? JUndefined |})])
              end
          end
        else
          (Normal tt, st,
           [ConsoleWarn "chat:message received without room, ignoring"])
      else (Normal tt, st, [])
  end.
Proof.
  unfold onChatMessage, bind, liftC, ret, act, modify, gets, usersOf.
  destruct (normalize (optMember payload "message")) as [text|e] eqn:Htext;
    [|done].
  destruct (truthyStr text) eqn:Hne; [|done]. simpl.
  assert (Hpresent : nullish payload = false).
  { destruct payload; try done; simpl in Htext;
      injection Htext as <-; done. }
  unfold member. rewrite Hpresent. simpl.
  destruct (truthy _); [|done]. simpl.
  destruct (toStr _) as [key|e]; [|done].
  destruct (roomValue st key); done.
Qed.

Lemma onDisconnect_run (sid : string) (st : Stores) :
  onDisconnect sid st =
  let st1 := set_onlineUsers (without sid) st in
  let global := EmitAll "usersOnline" (PUsers (without sid (onlineUsers st))) in
  match data_room (dataOf st sid) with
  | Some r =>
      if truthyStr r then
        match roomValue st r with
        | Foreign => (Abrupt TypeError, st1, [])
        | Members users =>
            (Normal tt,
             set_room r (without sid users) st1,
             [EmitTo (JStr r) "usersOnline" (PUsers (without sid users));
              global])
        end
      else (Normal tt, st1, [global])
  | None => (Normal tt, st1, [global])
  end.
Proof.
  unfold onDisconnect, bind, liftC, ret, act, modify, gets, usersOf. simpl.
  change (dataOf (set_onlineUsers (without sid) st) sid) with (dataOf st sid).
  destruct (data_room (dataOf st sid)) as [r|]; [|done].
  destruct (truthyStr r); [|done].
  change (roomValue (set_onlineUsers (without sid) st) r)
    with (roomValue st r).
  destruct (roomValue st r) as [users|]; [|done].
  simpl. by rewrite members_set_room.
Qed.

(** ** Member sequences *)

Lemma findUser_Some (sid : string) (users : list OnlineUser) (i : nat)
    (m : OnlineUser) :
  findUser sid users = Some (i, m) → users !! i = Some m ∧ socketId m = sid.
Proof.
  unfold findUser. intros Hfind.
  apply list_find_Some in Hfind as (Hi & Hm & _). done.
Qed.

Lemma findUser_None (sid : string) (users : list OnlineUser) :
  findUser sid users = None ↔ sid ∉ socketIds users.
Proof.
  unfold findUser, socketIds. rewrite list_find_None, Forall_forall.
  rewrite list_elem_of_fmap. split.
  - intros Hall (u & -> & Hu). by apply (Hall u).
  - intros Hout u Hu Heq. apply Hout. by exists u.
Qed.

Lemma findUser_unique (sid : string) (users : list OnlineUser) (i : nat)
    (m : OnlineUser) :
  NoDup (socketIds users) → users !! i = Some m → socketId m = sid →
  findUser sid users = Some (i, m).
Proof.
  intros Hnd Hi Hm. unfold findUser. apply list_find_Some.
  split_and!; [done..|].
  intros j y Hj Hlt Hy.
  assert (i = j); [|lia].
  apply (NoDup_lookup (socketIds users) i j sid Hnd);
    unfold socketIds; rewrite list_lookup_fmap.
  - by rewrite Hi; simpl; rewrite Hm.
  - by rewrite Hj; simpl; rewrite Hy.
Qed.

Lemma socketIds_replace (sid uid : string) (users : list OnlineUser) (i : nat)
    (m : OnlineUser) :
  users !! i = Some m → socketId m = sid →
  socketIds (<[i := {| socketId := sid; userId := uid |}]> users)
  = socketIds users.
Proof.
  intros Hi Hm. unfold socketIds. rewrite list_fmap_insert. simpl.
  apply list_insert_id. rewrite list_lookup_fmap, Hi. simpl. by rewrite Hm.
Qed.

Lemma socketIds_without (sid : string) (users : list OnlineUser) :
  socketIds (without sid users) = filter (λ s, s ≠ sid) (socketIds users).
Proof.
  unfold socketIds, without.
  induction users as [|u users IH]; [done|].
  rewrite fmap_cons, !filter_cons.
  destruct (decide (socketId u ≠ sid)); [|done].
  by rewrite fmap_cons, IH.
Qed.

Lemma NoDup_without (sid : string) (users : list OnlineUser) :
  NoDup (socketIds users) → NoDup (socketIds (without sid users)).
Proof. rewrite socketIds_without. apply NoDup_filter. Qed.

Lemma not_in_without (sid : string) (users : list OnlineUser) :
  sid ∉ socketIds (without sid users).
Proof.
  rewrite socketIds_without, list_elem_of_filter. by intros [Hne _].
Qed.

Lemma in_without (sid other : string) (users : list OnlineUser) :
  other ≠ sid →
  other ∈ socketIds (without sid users) ↔ other ∈ socketIds users.
Proof.
  intros Hne. rewrite socketIds_without, list_elem_of_filter. tauto.
Qed.

Lemma without_absent (sid : string) (users : list OnlineUser) :
  sid ∉ socketIds users → without sid users = users.
Proof.
  unfold socketIds, without.
  induction users as [|u users IH]; [done|].
  rewrite fmap_cons, not_elem_of_cons. intros [Hne Hrest].
  rewrite filter_cons.
  destruct (decide (socketId u ≠ sid)) as [_|Hn];
    [|exfalso; apply Hn; congruence].
  by rewrite IH.
Qed.

(** Removing a connection that occurs once shortens the sequence by one. *)
Lemma length_without (sid : string) (users : list OnlineUser) :
  NoDup (socketIds users) → sid ∈ socketIds users →
  length users = S (length (without sid users)).
Proof.
  unfold socketIds, without.
  induction users as [|u users IH].
  { intros _ Hin. by apply elem_of_nil in Hin. }
  rewrite fmap_cons, NoDup_cons, elem_of_cons. intros [Hhead Hnd] Hin.
  rewrite filter_cons. destruct (decide (socketId u ≠ sid)) as [Hne|Heq].
  - destruct Hin as [->|Hin]; [done|]. simpl. by rewrite <- IH.
  - assert (socketId u = sid) as Hu by (by destruct (decide (socketId u = sid))).
    rewrite Hu in Hhead. fold (socketIds users) in Hhead.
    fold (without sid users). by rewrite without_absent.
Qed.

Lemma NoDup_joined (sid uid : string) (users : list OnlineUser) :
  NoDup (socketIds users) →
  NoDup (socketIds
    match findUser sid users with
    | Some (i, _) => <[i := {| socketId := sid; userId := uid |}]> users
    | None => users ++ [{| socketId := sid; userId := uid |}]
    end).
Proof.
  intros Hnd. destruct (findUser sid users) as [[i m]|] eqn:Hfind.
  - apply findUser_Some in Hfind as [Hi Hm]. by erewrite socketIds_replace.
  - apply findUser_None in Hfind. unfold socketIds in *.
    rewrite fmap_app. apply NoDup_app. split_and!; [done| |].
    + intros x Hx ->%list_elem_of_singleton. done.
    + apply NoDup_singleton.
Qed.

Lemma in_joined (sid uid : string) (users : list OnlineUser) :
  sid ∈ socketIds
    match findUser sid users with
    | Some (i, _) => <[i := {| socketId := sid; userId := uid |}]> users
    | None => users ++ [{| socketId := sid; userId := uid |}]
    end.
Proof.
  destruct (findUser sid users) as [[i m]|] eqn:Hfind.
  - apply findUser_Some in Hfind as [Hi Hm].
    erewrite socketIds_replace by done.
    unfold socketIds. apply list_elem_of_fmap. exists m. split; [done|].
    apply list_elem_of_lookup. by exists i.
  - unfold socketIds. rewrite fmap_app. apply elem_of_app. right.
    simpl. apply list_elem_of_singleton. done.
Qed.

Lemma in_joined_other (sid uid other : string) (users : list OnlineUser) :
  other ∈ socketIds users →
  other ∈ socketIds
    match findUser sid users with
    | Some (i, _) => <[i := {| socketId := sid; userId := uid |}]> users
    | None => users ++ [{| socketId := sid; userId := uid |}]
    end.
Proof.
  intros Hin. destruct (findUser sid users) as [[i m]|] eqn:Hfind.
  - apply findUser_Some in Hfind as [Hi Hm]. by erewrite socketIds_replace.
  - unfold socketIds in *. rewrite fmap_app. apply elem_of_app. by left.
Qed.

(** ** What every run of a handler preserves *)

Lemma connected_true (st : Stores) (sid : string) :
  connected st sid = true ↔ is_Some (sockets st !! sid).
Proof. unfold connected. apply bool_decide_eq_true. Qed.

Lemma connected_false (st : Stores) (sid : string) :
  connected st sid = false ↔ sockets st !! sid = None.
Proof.
  unfold connected. rewrite bool_decide_eq_false. symmetry.
  apply eq_None_not_Some.
Qed.

Lemma dataOf_set_room (room : string) (users : list OnlineUser) (st : Stores)
    (sid : string) :
  dataOf (set_room room users st) sid = dataOf st sid.
Proof. reflexivity. Qed.

Lemma Forall_without (P : OnlineUser → Prop) (sid : string)
    (users : list OnlineUser) :
  Forall P users → Forall P (without sid users).
Proof.
  rewrite !Forall_forall. intros Hall u Hu. apply Hall.
  unfold without in Hu. by apply list_elem_of_filter in Hu as [_ ?].
Qed.

Lemma rooms_unique_same (st st' : Stores) :
  roomUsers st' = roomUsers st → rooms_unique st → rooms_unique st'.
Proof. intros Hsame Hrooms room. unfold members. rewrite Hsame. apply Hrooms. Qed.

Lemma rooms_unique_set_room (st st' : Stores) (room : string)
    (users : list OnlineUser) :
  roomUsers st' = <[room := users]> (roomUsers st) →
  NoDup (socketIds users) → rooms_unique st → rooms_unique st'.
Proof.
  intros Hset Hnd Hrooms r. unfold members. rewrite Hset, lookup_insert.
  destruct (decide (room = r)); simpl; [done|]. apply Hrooms.
Qed.

Section Preserved.

Context (h : Host).

(** [chat:message] writes no store. *)
Lemma chat_keeps_stores (sid : string) (payload : JsVal) (now : string)
    (st st' : Stores) (c : Completion unit) (t : list Act) :
  dispatch h (ChatMessage sid payload now) st = (c, st', t) → st' = st.
Proof.
  simpl. rewrite onChatMessage_run. cbv zeta.
  repeat case_match; intros Heq; by simplify_eq.
Qed.

(** No handler but [connection] and [disconnect] writes [onlineUsers]. *)
Lemma onlineUsers_kept (ev : Event) (st st' : Stores)
    (c : Completion unit) (t : list Act) :
  dispatch h ev st = (c, st', t) →
  (∀ sid, ev ≠ Connect sid) → (∀ sid, ev ≠ Disconnect sid) →
  onlineUsers st' = onlineUsers st.
Proof.
  intros Hrun Hconnect Hdisconnect.
  destruct ev as [sid|sid roomRaw userPayload|sid roomRaw|sid payload now|sid];
    simpl in Hrun.
  - by destruct (Hconnect sid).
  - rewrite onJoinRoom_run in Hrun. cbv zeta in Hrun.
    repeat case_match; by simplify_eq.
  - rewrite onLeaveRoom_run in Hrun. repeat case_match; by simplify_eq.
  - apply chat_keeps_stores in Hrun. by subst.
  - by destruct (Hdisconnect sid).
Qed.

(** A handler leaves every room without a repeated socket id, whether it
    completes or throws. *)
Lemma dispatch_rooms_unique (ev : Event) (st st' : Stores)
    (c : Completion unit) (t : list Act) :
  dispatch h ev st = (c, st', t) → rooms_unique st → rooms_unique st'.
Proof.
  intros Hrun Hrooms.
  destruct ev as [sid|sid roomRaw userPayload|sid roomRaw|sid payload now|sid].
  - injection Hrun as _ <- _. by apply (rooms_unique_same st).
  - simpl in Hrun. rewrite onJoinRoom_run in Hrun. cbv zeta in Hrun.
    destruct (normalize roomRaw) as [room|]; [|by simplify_eq].
    destruct (truthyStr room); [|by simplify_eq].
    destruct (resolveUid h sid userPayload) as [uid|];
      [|simplify_eq; by apply (rooms_unique_same st)].
    destruct (roomValue st room) as [users|] eqn:Husers;
      [|simplify_eq; by apply (rooms_unique_same st)].
    apply roomValue_members in Husers. subst users. simplify_eq.
    eapply (rooms_unique_set_room st); [reflexivity| |done].
    apply NoDup_joined, Hrooms.
  - simpl in Hrun. rewrite onLeaveRoom_run in Hrun.
    destruct (normalize roomRaw) as [room|]; [|by simplify_eq].
    destruct (truthyStr room); [|by simplify_eq].
    destruct (roomValue st room) as [users|] eqn:Husers; [|by simplify_eq].
    apply roomValue_members in Husers. subst users. simplify_eq.
    eapply (rooms_unique_set_room st); [reflexivity| |done].
    apply NoDup_without, Hrooms.
  - apply chat_keeps_stores in Hrun. by subst.
  - unfold dispatch, bind in Hrun. rewrite onDisconnect_run in Hrun.
    cbv zeta in Hrun.
    destruct (data_room (dataOf st sid)) as [r|];
      [|simpl in Hrun; simplify_eq; by apply (rooms_unique_same st)].
    destruct (truthyStr r);
      [|simpl in Hrun; simplify_eq; by apply (rooms_unique_same st)].
    destruct (roomValue st r) as [users|] eqn:Husers;
      [|simpl in Hrun; simplify_eq; by apply (rooms_unique_same st)].
    apply roomValue_members in Husers. subst users.
    simpl in Hrun. simplify_eq.
    eapply (rooms_unique_set_room st); [reflexivity| |done].
    apply NoDup_without, Hrooms.
Qed.

(** A handler leaves every entry of [onlineUsers] with the empty user
    id, whether it completes or throws. *)
Lemma dispatch_global_anonymous (ev : Event) (st st' : Stores)
    (c : Completion unit) (t : list Act) :
  dispatch h ev st = (c, st', t) → global_anonymous st → global_anonymous st'.
Proof.
  intros Hrun Hanon. unfold global_anonymous.
  destruct ev as [sid|sid roomRaw userPayload|sid roomRaw|sid payload now|sid].
  - injection Hrun as _ <- _. simpl. apply Forall_app. split; [done|].
    by apply Forall_singleton.
  - by rewrite (onlineUsers_kept _ _ _ _ _ Hrun).
  - by rewrite (onlineUsers_kept _ _ _ _ _ Hrun).
  - by rewrite (onlineUsers_kept _ _ _ _ _ Hrun).
  - unfold dispatch, bind in Hrun. rewrite onDisconnect_run in Hrun.
    cbv zeta in Hrun.
    assert (Hless : Forall (λ u, userId u = "") (without sid (onlineUsers st)))
      by by apply Forall_without.
    destruct (data_room (dataOf st sid)) as [r|];
      [destruct (truthyStr r); [destruct (roomValue st r)|]|];
      simpl in Hrun; by simplify_eq.
Qed.

Theorem visited_invariant (st : Stores) :
  visited h st → rooms_unique st ∧ global_anonymous st.
Proof.
  induction 1 as [|st ev c st' t _ [Hrooms Hanon] Hrun].
  - split.
    + intros room. unfold members; simpl. rewrite lookup_empty.
      apply NoDup_nil_2.
    + apply Forall_nil_2.
  - split.
    + by eapply dispatch_rooms_unique.
    + by eapply dispatch_global_anonymous.
Qed.

Lemma reachable_visited (st : Stores) : reachable h st → visited h st.
Proof.
  induction 1 as [|st ev st' t _ IH _ Hrun]; [apply visited_initial|].
  by eapply visited_step.
Qed.

End Preserved.

(** ** What a running server preserves *)

Section Running.

Context (h : Host).

Lemma consistent_initial : consistent initial.
Proof.
  split.
  - split; [apply NoDup_nil_2|]. intros sid; simpl.
    rewrite lookup_empty, elem_of_nil. split; [done|]. by intros [? ?].
  - intros sid r. unfold dataOf; simpl. by rewrite lookup_empty.
Qed.

Lemma consistent_connect (sid : string) (st st' : Stores) (t : list Act) :
  consistent st → connected st sid = false →
  dispatch h (Connect sid) st = (Normal tt, st', t) → consistent st'.
Proof.
  intros [[Hnd Hlive] Hroom] Hfresh%connected_false Hrun.
  injection Hrun as <- _. split.
  - split; simpl.
    + unfold socketIds. rewrite fmap_app. apply NoDup_app. split_and!; [done| |].
      * simpl. intros x Hx ->%list_elem_of_singleton.
        apply Hlive in Hx. rewrite Hfresh in Hx. by destruct Hx.
      * apply NoDup_singleton.
    + intros s. unfold socketIds. rewrite fmap_app, elem_of_app; simpl.
      rewrite list_elem_of_singleton, lookup_insert.
      destruct (decide (sid = s)) as [->|Hne]; simpl.
      * split; [by eauto|]. by right.
      * rewrite <- Hlive. unfold socketIds. split; [|by left].
        intros [?|?]; [done|congruence].
  - intros s r. unfold dataOf at 1; simpl. rewrite lookup_insert.
    destruct (decide (sid = s)); [done|]. apply Hroom.
Qed.

Lemma live_set_data (st : Stores) (sid s : string)
    (f : SocketData → SocketData) :
  is_Some (sockets st !! sid) →
  is_Some (sockets (set_data sid f st) !! s) ↔ is_Some (sockets st !! s).
Proof.
  intros Hlive. simpl. rewrite lookup_insert.
  destruct (decide (sid = s)) as [->|]; simpl; [|done].
  split; [done|]. by eauto.
Qed.

Lemma consistent_join (sid : string) (roomRaw userPayload : JsVal)
    (st st' : Stores) (t : list Act) :
  consistent st → connected st sid = true →
  dispatch h (JoinRoom sid roomRaw userPayload) st = (Normal tt, st', t) →
  consistent st'.
Proof.
  intros [[Hnd Hlive] Hroom] Hconn%connected_true.
  simpl. rewrite onJoinRoom_run.
  destruct (normalize roomRaw) as [room|]; [|done].
  destruct (truthyStr room) eqn:Hroomname.
  2:{ intros [= <- _]. by split. }
  simpl. destruct (resolveUid h sid userPayload) as [uid|]; [|done].
  destruct (roomValue st room) as [users|] eqn:Husers; [|done].
  apply roomValue_members in Husers. subst users.
  intros [= <- _]. split.
  - split; [exact Hnd|]. intros s. rewrite live_set_data;
      [|by apply live_set_data]. simpl in *.
    rewrite Hlive. symmetry. by apply (live_set_data st sid s).
  - intros s r. rewrite members_set_data.
    destruct (decide (s = sid)) as [->|Hs].
    + rewrite dataOf_set_data, dataOf_set_room, dataOf_set_data. simpl.
      intros [= <-]. split; [by apply truthyStr_true|].
      rewrite members_set_room. apply in_joined.
    + rewrite dataOf_set_data_ne, dataOf_set_room, dataOf_set_data_ne by done.
      intros [Hr Hin]%Hroom. split; [done|].
      destruct (decide (r = room)) as [->|Hne].
      * rewrite members_set_room. by apply in_joined_other.
      * by rewrite members_set_room_ne.
Qed.

Lemma consistent_leave (sid : string) (roomRaw : JsVal)
    (st st' : Stores) (t : list Act) :
  consistent st → connected st sid = true →
  dispatch h (LeaveRoom sid roomRaw) st = (Normal tt, st', t) →
  consistent st'.
Proof.
  intros [[Hnd Hlive] Hroom] Hconn%connected_true.
  simpl. rewrite onLeaveRoom_run.
  destruct (normalize roomRaw) as [room|]; [|done].
  destruct (truthyStr room) eqn:Hroomname.
  2:{ intros [= <- _]. by split. }
  destruct (roomValue st room) as [users|] eqn:Husers; [|done].
  apply roomValue_members in Husers. subst users.
  intros [= <- _]. split.
  - split; [exact Hnd|]. intros s. rewrite live_set_data;
      [|by apply live_set_data]. simpl in *.
    rewrite Hlive. symmetry. by apply (live_set_data st sid s).
  - intros s r. rewrite !members_set_data.
    destruct (decide (s = sid)) as [->|Hs].
    + by rewrite !dataOf_set_data.
    + rewrite !dataOf_set_data_ne, dataOf_set_room by done.
      intros [Hr Hin]%Hroom. split; [done|].
      destruct (decide (r = room)) as [->|Hne].
      * rewrite members_set_room. by apply in_without.
      * by rewrite members_set_room_ne.
Qed.

Lemma consistent_disconnect (sid : string) (st st' : Stores) (t : list Act) :
  consistent st → connected st sid = true →
  dispatch h (Disconnect sid) st = (Normal tt, st', t) →
  consistent st'.
Proof.
  intros [[Hnd Hlive] Hroom] Hconn%connected_true.
  unfold dispatch, bind. rewrite onDisconnect_run. simpl.
  assert (Hglobal : ∀ ru,
    global_exact {| onlineUsers := without sid (onlineUsers st);
                    roomUsers := ru;
                    sockets := delete sid (sockets st) |}).
  { intros ru. split; simpl; [by apply NoDup_without|].
    intros s. rewrite lookup_delete.
    destruct (decide (sid = s)) as [<-|Hne]; simpl.
    - split; [|by intros [? ?]]. intros Hin. by apply not_in_without in Hin.
    - rewrite in_without by done. apply Hlive. }
  assert (Hdata : ∀ ou ru s,
    dataOf {| onlineUsers := ou; roomUsers := ru;
              sockets := delete sid (sockets st) |} s
    = if decide (sid = s) then {| data_room := None; data_userId := None |}
      else dataOf st s).
  { intros ou ru s. unfold dataOf; simpl. rewrite lookup_delete.
    by destruct (decide (sid = s)). }
  destruct (data_room (dataOf st sid)) as [r|] eqn:Hr.
  - destruct (truthyStr r).
    + destruct (roomValue st r) as [users|] eqn:Husers; [|done].
      apply roomValue_members in Husers. subst users.
      intros [= <- _]. split; [apply Hglobal|].
      intros s r'. simpl. rewrite Hdata.
      destruct (decide (sid = s)) as [|Hs]; [done|].
      intros [Hne Hin]%Hroom. split; [done|].
      destruct (decide (r' = r)) as [->|Hrr].
      * unfold members; simpl. rewrite lookup_insert_eq; simpl.
        by apply in_without.
      * unfold members; simpl. by rewrite lookup_insert_ne.
    + intros [= <- _]. split; [apply Hglobal|].
      intros s r'. simpl. rewrite Hdata.
      destruct (decide (sid = s)); [done|]. apply Hroom.
  - intros [= <- _]. split; [apply Hglobal|].
    intros s r'. simpl. rewrite Hdata.
    destruct (decide (sid = s)); [done|]. apply Hroom.
Qed.

Lemma reachable_consistent (st : Stores) : reachable h st → consistent st.
Proof.
  induction 1 as [|st ev st' t _ IH Hdeliver Hrun]; [apply consistent_initial|].
  destruct ev as [sid|sid roomRaw userPayload|sid roomRaw|sid payload now|sid];
    simpl in Hdeliver.
  - apply negb_true_iff in Hdeliver. by eapply consistent_connect.
  - by eapply consistent_join.
  - by eapply consistent_leave.
  - apply chat_keeps_stores in Hrun. by subst.
  - by eapply consistent_disconnect.
Qed.

Theorem reachable_invariant (st : Stores) : reachable h st → invariant st.
Proof.
  intros Hreach.
  destruct (visited_invariant h st (reachable_visited h st Hreach))
    as [Hrooms Hanon].
  destruct (reachable_consistent st Hreach) as [Hglobal Hroom].
  by split_and!.
Qed.

End Running.

Lemma replay_reachable (h : Host) (evs : list Event) (st st' : Stores)
    (t : list Act) :
  reachable h st → replay h evs st = Some (st', t) → reachable h st'.
Proof.
  revert st t. induction evs as [|ev evs IH]; intros st t Hst; simpl.
  - by intros [= <- _].
  - destruct (deliverable st ev) eqn:Hdeliver; [|done].
    destruct (dispatch h ev st) as [[[[]|e] st1] t1] eqn:Hrun; [|done].
    destruct (replay h evs st1) as [[st2 t2]|] eqn:Hrest; [|done].
    intros [= <- _]. eapply IH; [|exact Hrest].
    by eapply reachable_step.
Qed.

Lemma reachable_lobby : reachable node lobby.
Proof.
  apply (replay_reachable node lobbyRun initial lobby
           (snd (default (initial, []) (replay node lobbyRun initial)))).
  - apply reachable_initial.
  - vm_compute. reflexivity.
Qed.

(** ** Room membership *)

(** After any sequence of events, whether their handlers completed
    or threw, a room's member sequence lists a connection at most once.
    When a connection that already has an entry in a room joins it again,
    the sequence of socket ids of that room is as before, so no entry is
    added and none moves, every position but the connection's own holds
    the entry it held, and the other rooms are untouched; and once the
    identity is resolved the handler completes, the entry at the
    connection's index carries the resolved user id, and that sequence is
    what the room is sent. *)
Theorem joinRoom_one_member_per_connection (h : Host) (st : Stores) :
  visited h st →
  (∀ room, NoDup (socketIds (members st room))) ∧
  (∀ (sid : string) (roomRaw userPayload : JsVal) (room : string)
     (i : nat) (m : OnlineUser),
     normalize roomRaw = Normal room → room ≠ "" →
     members st room !! i = Some m → socketId m = sid →
     ∃ c st' t,
       onJoinRoom h sid roomRaw userPayload st = (c, st', t) ∧
       socketIds (members st' room) = socketIds (members st room) ∧
       length (members st' room) = length (members st room) ∧
       (∀ j, j ≠ i → members st' room !! j = members st room !! j) ∧
       (∀ other, other ≠ room → members st' other = members st other) ∧
       (∀ uid, resolveUid h sid userPayload = Normal uid →
          c = Normal tt ∧
          members st' room
          = <[i := {| socketId := sid; userId := uid |}]> (members st room) ∧
          members st' room !! i = Some {| socketId := sid; userId := uid |} ∧
          t = [SocketJoin sid room;
               EmitTo (JStr room) "usersOnline" (PUsers (members st' room))])).
Proof.
  intros [Hrooms _]%visited_invariant.
  split; [exact Hrooms|].
  intros sid roomRaw userPayload room i m Hroom Hname Hi Hm.
  assert (Hown : roomValue st room = Members (members st room)).
  { unfold roomValue, members in *.
    destruct (roomUsers st !! room); [done|].
    simpl in Hi. by rewrite lookup_nil in Hi. }
  pose proof (findUser_unique sid _ i m (Hrooms room) Hi Hm) as Hfind.
  rewrite onJoinRoom_run, Hroom.
  apply truthyStr_true in Hname. rewrite Hname. cbv zeta.
  destruct (resolveUid h sid userPayload) as [uid|e].
  - rewrite Hown, Hfind. do 3 eexists. split; [reflexivity|].
    rewrite members_set_data, members_set_room. split_and!.
    + by eapply socketIds_replace.
    + apply length_insert.
    + intros j Hj. by apply list_lookup_insert_ne.
    + intros other Hother.
      by rewrite members_set_data, members_set_room_ne, members_set_data.
    + intros ? [= <-]. split_and!; try reflexivity.
      apply list_lookup_insert_eq. by eapply lookup_lt_Some.
  - do 3 eexists. split; [reflexivity|].
    rewrite members_set_data. by split_and!.
Qed.

Lemma joinRoom_one_member_per_connection_witness :
  NoDup (socketIds (members lobby "lobby")) ∧
  ∃ st',
    onJoinRoom node "s1" (JStr "lobby") (JStr "alice") lobby
    = (Normal tt, st',
       [SocketJoin "s1" "lobby";
        EmitTo (JStr "lobby") "usersOnline" (PUsers (members st' "lobby"))]) ∧
    members st' "lobby"
    = [ {| socketId := "s1"; userId := "alice" |};
        {| socketId := "s2"; userId := "s2" |} ].
Proof.
  destruct (joinRoom_one_member_per_connection node lobby
              (reachable_visited node lobby reachable_lobby))
    as [Hunique Hrejoin].
  split; [apply Hunique|].
  destruct (Hrejoin "s1" (JStr "lobby") (JStr "alice") "lobby" 0
              {| socketId := "s1"; userId := "bob" |})
    as (c & st' & t & Hrun & _ & _ & _ & _ & Hresolved);
    [reflexivity|discriminate|reflexivity..|].
  destruct (Hresolved "alice") as (-> & Hmembers & _ & ->); [reflexivity|].
  exists st'. split; [exact Hrun|]. rewrite Hmembers. reflexivity.
Defined.

(** C1.  On Node, socket [s1], listed in the room [lobby] as [bob], joins
    the room again with the identity [{}]: its entry is not given a new
    user id.  The handler throws [ReferenceError] at the read of [name] on
    line 70, after [socket.join], and the room still lists [s1] as [bob],
    in the same place. *)
Theorem rejoin_with_object_identity_throws :
  members lobby "lobby" !! 0 = Some {| socketId := "s1"; userId := "bob" |} ∧
  ∃ st',
    onJoinRoom node "s1" (JStr "lobby") (JObj []) lobby
    = (Abrupt ReferenceError, st', [SocketJoin "s1" "lobby"]) ∧
    members st' "lobby" = members lobby "lobby".
Proof.
  split; [reflexivity|]. eexists. rewrite onJoinRoom_run. by split.
Qed.

(** ** Identity resolution in [joinRoom] *)

(** What lines 69-74 give for an object that has none of [uid],
    [userId], [id]: the read of [name] decides.  Only a host that binds
    [name] to the empty string lets the handler reach the fallback to the
    socket id on line 74. *)
Lemma resolveUid_object_without_ids (h : Host) (sid : string)
    (props : list (string * JsVal)) :
  ownProp props "uid" = None → ownProp props "userId" = None →
  ownProp props "id" = None →
  resolveUid h sid (JObj props)
  = match global_name h with
    | None => Abrupt ReferenceError
    | Some name => Normal (if truthyStr name then name else sid)
    end.
Proof.
  intros Huid HuserId Hid. unfold resolveUid, getProp, readName.
  rewrite Huid, HuserId, Hid. simpl.
  destruct (global_name h) as [name|]; [|done]. simpl.
  by destruct name.
Qed.

(** C2.  On Node, [joinRoom("lobby", {})] does not store the socket id as
    the member's user id: the handler throws [ReferenceError] at the read
    of [name] on line 70, after it has called [socket.join] and recorded
    the room in [socket.data], and before it touches [roomUsers]. *)
Theorem joinRoom_object_without_ids_throws (sid : string) (st : Stores) :
  onJoinRoom node sid (JStr "lobby") (JObj []) st
  = (Abrupt ReferenceError,
     set_data sid (with_room (Some "lobby")) st,
     [SocketJoin sid "lobby"]).
Proof. by rewrite onJoinRoom_run. Qed.

(** C3.  Payloads that make a handler throw on Node: an identity that is
    an array or an object without id fields ([ReferenceError], line 70);
    a room, or a message, that is an object with a [toString] property of
    its own ([TypeError] in the string conversion); a room named like a
    member of [Object.prototype] ([TypeError] at the array method called
    on the value that [roomUsers] inherits). *)
Theorem malformed_payloads_throw (sid now : string) (st : Stores) :
  (onJoinRoom node sid (JStr "lobby") (JArr []) st).1.1
    = Abrupt ReferenceError ∧
  (onJoinRoom node sid (JStr "lobby") (JObj [("name", JStr "bob")]) st).1.1
    = Abrupt ReferenceError ∧
  (onJoinRoom node sid (JObj [("toString", JNull)]) JUndefined st).1.1
    = Abrupt TypeError ∧
  (onLeaveRoom sid (JObj [("toString", JNull)]) st).1.1
    = Abrupt TypeError ∧
  (onChatMessage sid (JObj [("message", JObj [("toString", JNum 1)])]) now st).1.1
    = Abrupt TypeError ∧
  (onLeaveRoom sid (JStr "constructor") initial).1.1
    = Abrupt TypeError.
Proof.
  rewrite !onJoinRoom_run, !onLeaveRoom_run, onChatMessage_run.
  by split_and!.
Qed.

(** C6.  A [joinRoom] whose room is empty after conversion to a string
    and trimming changes nothing and calls nothing. *)
Theorem joinRoom_empty_room_ignored (h : Host) (sid : string)
    (roomRaw userPayload : JsVal) (st : Stores) :
  normalize roomRaw = Normal "" →
  onJoinRoom h sid roomRaw userPayload st = (Normal tt, st, []).
Proof. intros Hroom. by rewrite onJoinRoom_run, Hroom. Qed.

Lemma joinRoom_empty_room_ignored_witness :
  onJoinRoom node "s1" (JStr "  ") (JStr "alice") lobby = (Normal tt, lobby, []) ∧
  onJoinRoom node "s1" JNull (JObj []) lobby = (Normal tt, lobby, []) ∧
  onJoinRoom node "s1" (JArr []) JUndefined lobby = (Normal tt, lobby, []).
Proof.
  split_and!; apply joinRoom_empty_room_ignored; reflexivity.
Defined.

(** ** Leaving and disconnecting *)

(** C4, as stated, fails: socket [s1] never joined the room [lounge], yet
    its [leaveRoom("lounge")] sends a [usersOnline] broadcast to that
    room, and it erases the room [lobby] that [socket.data] recorded for
    [s1], which stays a member of [lobby]. *)
Lemma leaveRoom_never_joined_broadcasts :
  ("s1" ∉ socketIds (members lobby "lounge")) ∧
  ∃ st',
    onLeaveRoom "s1" (JStr "lounge") lobby
    = (Normal tt, st',
       [SocketLeave "s1" "lounge";
        EmitTo (JStr "lounge") "usersOnline" (PUsers [])]) ∧
    ¬ Forall (λ a, isBroadcast a = false)
        [SocketLeave "s1" "lounge";
         EmitTo (JStr "lounge") "usersOnline" (PUsers [])] ∧
    data_room (dataOf lobby "s1") = Some "lobby" ∧
    data_room (dataOf st' "s1") = None ∧
    "s1" ∈ socketIds (members st' "lobby").
Proof.
  split.
  { vm_compute. intros Hin. inversion Hin. }
  eexists. rewrite onLeaveRoom_run. split_and!.
  - reflexivity.
  - intros Hnone. apply Forall_cons in Hnone as [_ Hnone].
    apply Forall_cons in Hnone as [Hemit _]. discriminate Hemit.
  - reflexivity.
  - reflexivity.
  - vm_compute. apply list_elem_of_here.
Qed.

(** C4, amended.  For a room name that is not empty and is not the name
    of a member of [Object.prototype], a [leaveRoom] by a connection that
    is not in the room's member sequence completes without an error and
    leaves the member sequence of every room as it was; it still sends one
    [usersOnline] broadcast to the room, carrying that unchanged sequence,
    and it clears the room and the user id kept in [socket.data]. *)
Theorem leaveRoom_never_joined (sid : string) (roomRaw : JsVal)
    (room : string) (st : Stores) :
  normalize roomRaw = Normal room → room ≠ "" → inherited room = false →
  sid ∉ socketIds (members st room) →
  ∃ st',
    onLeaveRoom sid roomRaw st
    = (Normal tt, st',
       [SocketLeave sid room;
        EmitTo (JStr room) "usersOnline" (PUsers (members st room))]) ∧
    (∀ r, members st' r = members st r) ∧
    onlineUsers st' = onlineUsers st ∧
    dataOf st' sid = {| data_room := None; data_userId := None |} ∧
    (∀ other, other ≠ sid → dataOf st' other = dataOf st other).
Proof.
  intros Hroom Hname%truthyStr_true Hplain Hout.
  eexists. rewrite onLeaveRoom_run, Hroom, Hname, roomValue_plain by done.
  rewrite (without_absent sid (members st room)) by done. split_and!.
  - reflexivity.
  - intros r. rewrite !members_set_data.
    destruct (decide (r = room)) as [->|Hne].
    + apply members_set_room.
    + by apply members_set_room_ne.
  - reflexivity.
  - by rewrite !dataOf_set_data.
  - intros other Hother. by rewrite !dataOf_set_data_ne, dataOf_set_room.
Qed.

Lemma leaveRoom_never_joined_witness :
  ∃ st',
    onLeaveRoom "s1" (JStr " lounge") lobby
    = (Normal tt, st',
       [SocketLeave "s1" "lounge";
        EmitTo (JStr "lounge") "usersOnline" (PUsers (members lobby "lounge"))]) ∧
    (∀ r, members st' r = members lobby r) ∧
    onlineUsers st' = onlineUsers lobby ∧
    dataOf st' "s1" = {| data_room := None; data_userId := None |} ∧
    (∀ other, other ≠ "s1" → dataOf st' other = dataOf lobby other).
Proof.
  apply (leaveRoom_never_joined "s1" (JStr " lounge") "lounge" lobby).
  - reflexivity.
  - discriminate.
  - reflexivity.
  - vm_compute. intros Hin. inversion Hin.
Defined.

(** C5.  In a running server, [disconnect] of a live connection
    completes; [onlineUsers] loses exactly the one entry of that
    connection; when [socket.data] records a room, that room's member
    sequence loses exactly the one entry of the connection, the other
    rooms keep theirs, and the handler sends one [usersOnline] broadcast
    to that room and then one to everybody; when no room is recorded,
    [roomUsers] is untouched and the only broadcast is the one to
    everybody. *)
Theorem disconnect_removes_once (h : Host) (st : Stores) (sid : string) :
  reachable h st → connected st sid = true →
  ∃ st' t,
    onDisconnect sid st = (Normal tt, st', t) ∧
    onlineUsers st' = without sid (onlineUsers st) ∧
    length (onlineUsers st) = S (length (onlineUsers st')) ∧
    (sid ∉ socketIds (onlineUsers st')) ∧
    match data_room (dataOf st sid) with
    | Some r =>
        members st' r = without sid (members st r) ∧
        length (members st r) = S (length (members st' r)) ∧
        (sid ∉ socketIds (members st' r)) ∧
        (∀ other, other ≠ r → members st' other = members st other) ∧
        t = [EmitTo (JStr r) "usersOnline" (PUsers (members st' r));
             EmitAll "usersOnline" (PUsers (onlineUsers st'))]
    | None =>
        roomUsers st' = roomUsers st ∧
        t = [EmitAll "usersOnline" (PUsers (onlineUsers st'))]
    end.
Proof.
  intros (Hrooms & _ & [Hnd Hlive] & Hroom)%reachable_invariant
    Hconn%connected_true.
  apply Hlive in Hconn.
  rewrite onDisconnect_run. cbv zeta.
  destruct (data_room (dataOf st sid)) as [r|] eqn:Hr.
  - destruct (Hroom sid r Hr) as [Hname%truthyStr_true Hin].
    rewrite Hname.
    assert (Hown : roomValue st r = Members (members st r)).
    { unfold roomValue, members in *.
      destruct (roomUsers st !! r); [done|]. by apply elem_of_nil in Hin. }
    rewrite Hown. do 2 eexists. split; [reflexivity|].
    rewrite members_set_room. simpl. split_and!; try done.
    + by apply length_without.
    + apply not_in_without.
    + by apply length_without.
    + apply not_in_without.
    + intros other Hother. by rewrite members_set_room_ne.
  - do 2 eexists. split; [reflexivity|]. simpl. split_and!; try done.
    + by apply length_without.
    + apply not_in_without.
Qed.

Lemma disconnect_removes_once_witness :
  ∃ st',
    onDisconnect "s1" lobby
    = (Normal tt, st',
       [EmitTo (JStr "lobby") "usersOnline"
          (PUsers [{| socketId := "s2"; userId := "s2" |}]);
        EmitAll "usersOnline"
          (PUsers [ {| socketId := "s2"; userId := "" |};
                    {| socketId := "s3"; userId := "" |} ])]) ∧
    onlineUsers st'
    = [ {| socketId := "s2"; userId := "" |};
        {| socketId := "s3"; userId := "" |} ] ∧
    members st' "lobby" = [{| socketId := "s2"; userId := "s2" |}].
Proof.
  destruct (disconnect_removes_once node lobby "s1" reachable_lobby)
    as (st' & t & Hrun & Hglobal & _ & _ & Hroom); [reflexivity|].
  change (data_room (dataOf lobby "s1")) with (Some "lobby") in Hroom.
  destruct Hroom as (Hmembers & _ & _ & _ & ->).
  exists st'. rewrite Hrun, Hmembers, Hglobal. split_and!; reflexivity.
Defined.

(** ** Relaying chat messages *)

Lemma trimStart_blank (s : string) : trimStart s = "" ↔ blank s = true.
Proof.
  induction s as [|c s IH]; simpl; [done|].
  destruct (isWhiteSpace c); simpl; [exact IH|]. split; discriminate.
Qed.

Lemma trimEnd_empty (s : string) : trimEnd s = "" ↔ blank s = true.
Proof.
  induction s as [|c s IH]; simpl; [done|].
  destruct (isWhiteSpace c); simpl; [|split; discriminate].
  destruct (trimEnd s) eqn:Hend; simpl.
  - split; [intros _|done]. by apply IH.
  - split; [discriminate|]. intros Hblank%IH. discriminate.
Qed.

Lemma blank_trimStart (s : string) : blank (trimStart s) = blank s.
Proof.
  induction s as [|c s IH]; simpl; [done|].
  destruct (isWhiteSpace c) eqn:Hc; simpl; [exact IH|]. by rewrite Hc.
Qed.

(** Trimming leaves nothing exactly for a string of white space. *)
Lemma trim_blank (s : string) : trim s = "" ↔ blank s = true.
Proof. unfold trim. by rewrite trimEnd_empty, blank_trimStart. Qed.

(** C7.  A [chat:message] whose message, converted to a string, is empty
    or white space only, or that carries no room while [socket.data]
    records none, changes nothing and sends no broadcast at all.  In the
    first case the handler returns at once; in the second, once the
    message has passed the emptiness test, it returns normally after a
    single console warning. *)
Theorem chat_without_text_or_room_not_relayed (sid : string) (payload : JsVal)
    (now : string) (st : Stores) :
  (∃ raw, toStringMethod (optMember payload "message" ?? JStr "") = Normal raw
          ∧ blank raw = true)
  ∨ (nullish (getProp payload "room") = true
     ∧ data_room (dataOf st sid) = None) →
  ∃ c t,
    onChatMessage sid payload now st = (c, st, t) ∧
    Forall (λ a, isBroadcast a = false) t ∧
    (∀ raw, toStringMethod (optMember payload "message" ?? JStr "") = Normal raw →
       blank raw = true → c = Normal tt ∧ t = []) ∧
    (∀ raw, toStringMethod (optMember payload "message" ?? JStr "") = Normal raw →
       blank raw = false →
       c = Normal tt ∧
       t = [ConsoleWarn "chat:message received without room, ignoring"]).
Proof.
  intros Hcase. rewrite onChatMessage_run. unfold normalize, mapC, thenC.
  destruct (toStringMethod (optMember payload "message" ?? JStr ""))
    as [raw|e]; cycle 1.
  { do 2 eexists. split_and!; [reflexivity|apply Forall_nil_2|done..]. }
  destruct (blank raw) eqn:Hblank.
  - apply trim_blank in Hblank as Htrim. rewrite Htrim. simpl.
    do 2 eexists. split_and!; [reflexivity|apply Forall_nil_2| |].
    + by intros ? [= <-] _.
    + intros ? [= <-] Hno. congruence.
  - destruct Hcase as [(raw' & [= <-] & Hyes)|[Hnoroom Hnostored]];
      [congruence|].
    assert (Htext : truthyStr (trim raw) = true).
    { apply truthyStr_true. intros Hempty%trim_blank. congruence. }
    rewrite Htext. cbv zeta. unfold storedRoom. rewrite Hnostored.
    unfold coalesce at 1. rewrite Hnoroom. simpl.
    do 2 eexists. split_and!; [reflexivity| | |].
    + by apply Forall_singleton.
    + intros ? [= <-] Hyes. congruence.
    + by intros ? [= <-] _.
Qed.

Lemma chat_without_text_or_room_not_relayed_witness :
  onChatMessage "s1" (JObj [("message", JStr "   "); ("room", JStr "lobby")])
    "2026-01-01T00:00:00.000Z" lobby
  = (Normal tt, lobby, []) ∧
  onChatMessage "s3" (JObj [("message", JStr "hi")])
    "2026-01-01T00:00:00.000Z" lobby
  = (Normal tt, lobby,
     [ConsoleWarn "chat:message received without room, ignoring"]).
Proof.
  split.
  - destruct (chat_without_text_or_room_not_relayed "s1"
                (JObj [("message", JStr "   "); ("room", JStr "lobby")])
                "2026-01-01T00:00:00.000Z" lobby)
      as (c & t & Hrun & _ & Hempty & _).
    { left. exists "   ". split; reflexivity. }
    destruct (Hempty "   ") as [-> ->]; [reflexivity..|]. exact Hrun.
  - destruct (chat_without_text_or_room_not_relayed "s3"
                (JObj [("message", JStr "hi")])
                "2026-01-01T00:00:00.000Z" lobby)
      as (c & t & Hrun & _ & _ & Hwarn).
    { right. split; reflexivity. }
    destruct (Hwarn "hi") as [-> ->]; [reflexivity..|]. exact Hrun.
Defined.

(** C8.  Whenever [chat:message] sends a [chat:message] out, that is its
    only call, the handler completes and the stores are unchanged; the
    target is [payload.room], else the room in [socket.data]; and the
    object sent has: as [userId], [payload.userId] when present, else the
    user id of the sender's entry in the member sequence of the target
    room, else the socket id; as [message], the trimmed string form of
    [payload.message]; as [timestamp], [payload.timestamp] when present,
    else the clock reading; as [clientId], [payload.clientId] when
    present, else [undefined]. *)
Theorem chat_relay_fields (sid : string) (payload : JsVal) (now : string)
    (st st' : Stores) (c : Completion unit) (t : list Act) (a : Act) :
  onChatMessage sid payload now st = (c, st', t) →
  a ∈ t → isChatEmit a = true →
  ∃ raw key,
    toStringMethod (optMember payload "message" ?? JStr "") = Normal raw ∧
    toStr (getProp payload "room" ?? storedRoom st sid ?? JNull) = Normal key ∧
    a = EmitTo (getProp payload "room" ?? storedRoom st sid ?? JNull)
          "chat:message"
          (PChat
             {| msg_userId :=
                  if present (getProp payload "userId")
                  then getProp payload "userId"
                  else match findUser sid (members st key) with
                       | Some (_, sender) => JStr (userId sender)
                       | None => JStr sid
                       end;
                msg_message := trim raw;
                msg_timestamp :=
                  if present (getProp payload "timestamp")
                  then getProp payload "timestamp"
                  else JStr now;
                msg_clientId :=
                  if present (getProp payload "clientId")
                  then getProp payload "clientId"
                  else JUndefined |}) ∧
    t = [a] ∧ c = Normal tt ∧ st' = st.
Proof.
  rewrite onChatMessage_run. unfold normalize, mapC, thenC. cbv zeta.
  destruct (toStringMethod (optMember payload "message" ?? JStr ""))
    as [raw|e]; [|by intros [= _ _ <-] Hin%elem_of_nil].
  destruct (truthyStr (trim raw)); [|by intros [= _ _ <-] Hin%elem_of_nil].
  destruct (truthy _).
  2:{ intros [= _ _ <-] ->%list_elem_of_singleton. discriminate. }
  destruct (toStr _) as [key|e]; [|by intros [= _ _ <-] Hin%elem_of_nil].
  destruct (roomValue st key) as [users|] eqn:Husers;
    [|by intros [= _ _ <-] Hin%elem_of_nil].
  apply roomValue_members in Husers. subst users.
  intros [= <- <- <-] ->%list_elem_of_singleton _.
  exists raw, key. split_and!; try reflexivity.
  do 3 f_equal. f_equal.
  - unfold present, coalesce.
    destruct (nullish (getProp payload "userId")); simpl; [|done].
    by destruct (findUser sid (members st key)) as [[? ?]|].
  - unfold present, coalesce. by destruct (nullish _).
  - unfold present, coalesce. by destruct (nullish _).
Qed.

Lemma chat_relay_fields_witness :
  onChatMessage "s1" (JObj [("message", JStr " hi ")])
    "2026-01-01T00:00:00.000Z" lobby
  = (Normal tt, lobby,
     [EmitTo (JStr "lobby") "chat:message"
        (PChat {| msg_userId := JStr "bob";
                  msg_message := "hi";
                  msg_timestamp := JStr "2026-01-01T00:00:00.000Z";
                  msg_clientId := JUndefined |})]).
Proof.
  destruct (onChatMessage "s1" (JObj [("message", JStr " hi ")])
              "2026-01-01T00:00:00.000Z" lobby) as [[c st'] t] eqn:Hrun.
  assert (Hsent : ∃ a, a ∈ t ∧ isChatEmit a = true).
  { rewrite onChatMessage_run in Hrun. injection Hrun as _ _ <-.
    eexists. split; [apply list_elem_of_here|reflexivity]. }
  destruct Hsent as (a & Hin & Hchat).
  destruct (chat_relay_fields "s1" (JObj [("message", JStr " hi ")])
              "2026-01-01T00:00:00.000Z" lobby st' c t a Hrun Hin Hchat)
    as (raw & key & Hraw & Hkey & -> & -> & -> & ->).
  injection Hraw as <-. injection Hkey as <-. reflexivity.
Defined.

(** ** Global presence *)

(** The broadcasts to everybody carry [onlineUsers] as the handler
    leaves it. *)
Lemma global_broadcast_payload (h : Host) (ev : Event) (st st' : Stores)
    (c : Completion unit) (t : list Act) (event : string)
    (users : list OnlineUser) :
  dispatch h ev st = (c, st', t) → EmitAll event (PUsers users) ∈ t →
  global_anonymous st → Forall (λ u, userId u = "") users.
Proof.
  intros Hrun Hin Hanon.
  destruct ev as [sid|sid roomRaw userPayload|sid roomRaw|sid payload now|sid].
  - injection Hrun as _ _ <-.
    apply elem_of_cons in Hin as [[= _ ->]|Hin].
    + apply Forall_app. split; [exact Hanon|]. by apply Forall_singleton.
    + by apply list_elem_of_singleton in Hin.
  - simpl in Hrun. rewrite onJoinRoom_run in Hrun. cbv zeta in Hrun.
    repeat case_match; simplify_eq; not_called Hin.
  - simpl in Hrun. rewrite onLeaveRoom_run in Hrun.
    repeat case_match; simplify_eq; not_called Hin.
  - simpl in Hrun. rewrite onChatMessage_run in Hrun. cbv zeta in Hrun.
    repeat case_match; simplify_eq; not_called Hin.
  - unfold dispatch, bind in Hrun. rewrite onDisconnect_run in Hrun.
    cbv zeta in Hrun. simpl in Hrun.
    assert (Hless : Forall (λ u, userId u = "") (without sid (onlineUsers st)))
      by by apply Forall_without.
    repeat case_match; simplify_eq;
      repeat (apply elem_of_cons in Hin as [Heq|Hin];
              [by (discriminate Heq || (injection Heq as _ ->))|]);
      by apply elem_of_nil in Hin.
Qed.

(** C9.  After any sequence of events, whether their handlers completed
    or threw, every entry of [onlineUsers] has the empty user id:
    [connection] appends an entry with the empty user id; every other
    handler leaves [onlineUsers] as it is, [joinRoom] among them, except
    [disconnect], which only removes the entries of its socket; and every
    [usersOnline] broadcast to everybody, by any handler, carries only
    empty user ids. *)
Theorem global_presence_userId_empty (h : Host) (st : Stores) :
  visited h st →
  Forall (λ u, userId u = "") (onlineUsers st) ∧
  (∀ sid, onlineUsers (onConnection sid st).1.2
          = onlineUsers st ++ [{| socketId := sid; userId := "" |}]) ∧
  (∀ sid roomRaw userPayload,
     onlineUsers (onJoinRoom h sid roomRaw userPayload st).1.2
     = onlineUsers st) ∧
  (∀ ev c st' t,
     dispatch h ev st = (c, st', t) → (∀ sid, ev ≠ Connect sid) →
     onlineUsers st' = onlineUsers st ∨
     ∃ sid, ev = Disconnect sid ∧
            onlineUsers st' = without sid (onlineUsers st)) ∧
  (∀ ev c st' t event users,
     dispatch h ev st = (c, st', t) →
     EmitAll event (PUsers users) ∈ t →
     Forall (λ u, userId u = "") users).
Proof.
  intros [_ Hanon]%visited_invariant. split_and!.
  - exact Hanon.
  - done.
  - intros sid roomRaw userPayload.
    destruct (onJoinRoom h sid roomRaw userPayload st) as [[c st'] t] eqn:Hrun.
    by apply (onlineUsers_kept h (JoinRoom sid roomRaw userPayload) _ _ c t).
  - intros ev c st' t Hrun Hconnect.
    destruct ev as [sid|sid roomRaw userPayload|sid roomRaw|sid payload now|sid];
      [by destruct (Hconnect sid)
      |left; by eapply onlineUsers_kept..
      |right; exists sid; split; [done|]].
    unfold dispatch, bind in Hrun. rewrite onDisconnect_run in Hrun.
    cbv zeta in Hrun.
    destruct (data_room (dataOf st sid)) as [r|];
      [destruct (truthyStr r); [destruct (roomValue st r)|]|];
      simpl in Hrun; by simplify_eq.
  - intros ev c st' t event users Hrun Hin.
    by eapply global_broadcast_payload.
Qed.

Lemma global_presence_userId_empty_witness :
  Forall (λ u, userId u = "") (onlineUsers lobby) ∧
  onlineUsers
    (onJoinRoom node "s1" (JStr "lobby") (JStr "alice") lobby).1.2
  = onlineUsers lobby ∧
  ∀ users,
    EmitAll "usersOnline" (PUsers users) ∈ (onDisconnect "s1" lobby).2 →
    Forall (λ u, userId u = "") users.
Proof.
  destruct (global_presence_userId_empty node lobby
              (reachable_visited node lobby reachable_lobby))
    as (Hanon & _ & Hjoin & _ & Hsent).
  split_and!; [exact Hanon|apply Hjoin|].
  intros users Hin.
  apply (Hsent (Disconnect "s1") (Normal tt)
           (dispatch node (Disconnect "s1") lobby).1.2
           (dispatch node (Disconnect "s1") lobby).2
           "usersOnline" users); [reflexivity|exact Hin].
Defined.

(** C10.  A [chat:message] addressed to the room [constructor] is not
    relayed: [roomUsers] inherits a value under that key, the handler
    calls [find] on it and throws. *)
Theorem chat_to_inherited_room_name_throws (now : string) :
  onChatMessage "s1"
    (JObj [("room", JStr "constructor"); ("message", JStr "hi")]) now lobby
  = (Abrupt TypeError, lobby, []).
Proof. by rewrite onChatMessage_run. Qed.

(** For every other room name, [chat:message] relays without asking
    whether the sender is a member: the message goes to the room the
    payload names, under [payload.userId] or else the socket id. *)
Lemma chat_relays_without_membership (sid : string) (payload : JsVal)
    (now room text : string) (st : Stores) :
  getProp payload "room" = JStr room → room ≠ "" → inherited room = false →
  normalize (optMember payload "message") = Normal text → text ≠ "" →
  sid ∉ socketIds (members st room) →
  onChatMessage sid payload now st
  = (Normal tt, st,
     [EmitTo (JStr room) "chat:message"
        (PChat
           {| msg_userId :=
                if present (getProp payload "userId")
                then getProp payload "userId" else JStr sid;
              msg_message := text;
              msg_timestamp := getProp payload "timestamp" ?? JStr now;
              msg_clientId := getProp payload "clientId" ?? JUndefined |})]).
Proof.
  intros Hroom Hname%truthyStr_true Hplain Htext Hne%truthyStr_true
    Hout%findUser_None.
  rewrite onChatMessage_run, Htext, Hne, Hroom. cbv zeta.
  unfold coalesce at 1. simpl. rewrite Hname, roomValue_plain, Hout by done.
  simpl. unfold present, coalesce.
  by destruct (nullish (getProp payload "userId")).
Qed.

(** * Further properties *)

(** ** Trimming *)

Lemma trimEnd_idem (s : string) : trimEnd (trimEnd s) = trimEnd s.
Proof.
  induction s as [|c s IH]; simpl; [done|].
  destruct (isWhiteSpace c) eqn:Hc; simpl.
  - destruct (trimEnd s) eqn:Hend; simpl; [done|].
    rewrite Hc. simpl. simpl in IH. rewrite IH. done.
  - rewrite Hc. simpl. by rewrite IH.
Qed.

Lemma trimStart_head (s : string) :
  trimStart s = "" ∨ ∃ c rest, trimStart s = String c rest ∧ isWhiteSpace c = false.
Proof.
  induction s as [|c s IH]; simpl; [by left|].
  destruct (isWhiteSpace c) eqn:Hc; [exact IH|]. right. by exists c, s.
Qed.

Lemma trimStart_trimEnd (s : string) :
  trimStart (trimEnd (trimStart s)) = trimEnd (trimStart s).
Proof.
  destruct (trimStart_head s) as [->|(c & rest & -> & Hc)]; [done|].
  simpl. rewrite Hc. simpl. by rewrite Hc.
Qed.

(** Trimming a trimmed string changes nothing. *)
Lemma trim_idem (s : string) : trim (trim s) = trim s.
Proof. unfold trim. by rewrite trimStart_trimEnd, trimEnd_idem. Qed.

Lemma occurs_trimStart (c : ascii) (s : string) :
  occurs c (trimStart s) = true → occurs c s = true.
Proof.
  induction s as [|d s IH]; simpl; [done|].
  destruct (isWhiteSpace d); [|done].
  intros Hin%IH. rewrite Hin. apply orb_true_r.
Qed.

Lemma occurs_trimEnd (c : ascii) (s : string) :
  occurs c (trimEnd s) = true → occurs c s = true.
Proof.
  induction s as [|d s IH]; simpl; [done|].
  destruct (isWhiteSpace d && negb (truthyStr (trimEnd s))); simpl; [done|].
  intros [Hd|Hin%IH]%orb_true_iff; apply orb_true_iff; [by left|by right].
Qed.

Lemma occurs_trim (c : ascii) (s : string) :
  occurs c (trim s) = true → occurs c s = true.
Proof. unfold trim. by intros ?%occurs_trimEnd%occurs_trimStart. Qed.

(** A leading white space does not survive. *)
Lemma trim_leading (c : ascii) (s : string) :
  isWhiteSpace c = true → trim (String c s) = trim s.
Proof. intros Hc. unfold trim. simpl. by rewrite Hc. Qed.

(** ** The allowed origins *)

Lemma split_cons (sep : ascii) (s : string) :
  ∃ piece pieces, split sep s = piece :: pieces.
Proof.
  induction s as [|c s (p & ps & IH)]; simpl; [by eauto|].
  destruct (Ascii.eqb c sep); [by eauto|]. rewrite IH. by eauto.
Qed.

Lemma split_pieces (sep : ascii) (s : string) :
  Forall (λ piece, occurs sep piece = false) (split sep s).
Proof.
  induction s as [|c s IH]; simpl; [by apply Forall_singleton|].
  destruct (Ascii.eqb c sep) eqn:Hc; [by apply Forall_cons|].
  destruct (split sep s) as [|p ps]; [by apply Forall_singleton; simpl; rewrite Hc|].
  apply Forall_cons in IH as [Hp Hps]. apply Forall_cons. split; [|done].
  simpl. by rewrite Hc.
Qed.

Lemma split_whole (sep : ascii) (s : string) :
  occurs sep s = false → split sep s = [s].
Proof.
  induction s as [|c s IH]; simpl; [done|].
  intros [Hc Hs]%orb_false_iff. rewrite Hc, IH by done. done.
Qed.

Lemma split_app (sep : ascii) (a b : string) :
  occurs sep a = false →
  split sep (a +:+ String sep b) = a :: split sep b.
Proof.
  induction a as [|c a IH]; simpl.
  - intros _. by rewrite Ascii.eqb_refl.
  - intros [Hc Ha]%orb_false_iff. rewrite Hc, IH by done. done.
Qed.

(** What [split] makes of a joined list of comma-free strings. *)
Lemma split_joinWith (x : string) (rest : list string) :
  Forall (λ o, occurs "," o = false) (x :: rest) →
  split "," (joinWith ", " (x :: rest)) = x :: (String " " <$> rest).
Proof.
  revert x. induction rest as [|y rest IH]; intros x Hclean.
  - apply Forall_cons in Hclean as [Hx _]. simpl. by apply split_whole.
  - apply Forall_cons in Hclean as [Hx Hrest].
    change (joinWith ", " (x :: y :: rest))
      with (x +:+ String "," (String " " (joinWith ", " (y :: rest)))).
    rewrite split_app by done. f_equal.
    change (split "," (String " " (joinWith ", " (y :: rest))))
      with (match split "," (joinWith ", " (y :: rest)) with
            | [] => [String " " ""]
            | piece :: pieces => String " " piece :: pieces
            end).
    by rewrite IH.
Qed.

Lemma origins_clean (envOrigin : option string) :
  Forall cleanOrigin (origins envOrigin).
Proof.
  unfold origins. apply Forall_forall. intros o [Hne Hin]%list_elem_of_filter.
  apply list_elem_of_fmap in Hin as (piece & -> & Hpiece).
  pose proof (split_pieces "," (default "" envOrigin)) as Hpieces.
  rewrite Forall_forall in Hpieces. specialize (Hpieces piece Hpiece).
  split_and!.
  - by apply truthyStr_true.
  - apply trim_idem.
  - destruct (occurs "," (trim piece)) eqn:Hin; [|done].
    apply occurs_trim in Hin. congruence.
Qed.

Lemma corsOrigins_clean (envOrigin : option string) :
  corsOrigins envOrigin ≠ [] ∧ Forall cleanOrigin (corsOrigins envOrigin).
Proof.
  unfold corsOrigins. pose proof (origins_clean envOrigin) as Hclean.
  destruct (origins envOrigin) as [|o os]; [|done].
  split; [done|]. apply Forall_singleton. by split_and!.
Qed.

Lemma origins_joined (l : list string) :
  Forall cleanOrigin l → origins (Some (joinWith ", " l)) = l.
Proof.
  intros Hclean. destruct l as [|x rest]; [done|].
  change (origins (Some (joinWith ", " (x :: rest))))
    with (filter (λ s, truthyStr s = true)
            (trim <$> split "," (joinWith ", " (x :: rest)))).
  rewrite split_joinWith.
  2:{ eapply Forall_impl; [exact Hclean|]. by intros o (_ & _ & ?). }
  rewrite fmap_cons, <- list_fmap_compose.
  assert (Hsame : trim x :: (trim ∘ String " " <$> rest) = x :: rest).
  { apply Forall_cons in Hclean as [(_ & -> & _) Hrest]. f_equal.
    induction Hrest as [|y rest (_ & Hy & _) _ IH]; [done|].
    rewrite fmap_cons, IH. f_equal. simpl. by rewrite trim_leading. }
  rewrite Hsame. clear Hsame.
  induction Hclean as [|y l (Hy%truthyStr_true & _) _ IH]; [done|].
  rewrite filter_cons. destruct (decide (truthyStr y = true)); [|done].
  by rewrite IH.
Qed.

(** X1.  The list of allowed origins is never empty, and each of its
    entries is a non-empty string without white space at either end and
    without a comma, whatever [ORIGIN] holds. *)
Theorem corsOrigins_well_formed (envOrigin : option string) :
  corsOrigins envOrigin ≠ [] ∧
  Forall (λ o, o ≠ "" ∧ trim o = o ∧ occurs "," o = false)
    (corsOrigins envOrigin).
Proof. apply corsOrigins_clean. Qed.

Lemma pieces_blank (s : string) :
  Forall (λ piece, blank piece = true) (split "," s)
  ↔ every (λ c, isWhiteSpace c || Ascii.eqb c ",") s = true.
Proof.
  induction s as [|c s IH]; simpl.
  - split; [done|]. intros _. by apply Forall_singleton.
  - destruct IH as [IH1 IH2]. destruct (Ascii.eqb c ",") eqn:Hc.
    + rewrite orb_true_r. simpl. rewrite Forall_cons.
      split; [intros [_ Hrest]; by apply IH1|by split; [|apply IH2]].
    + rewrite orb_false_r.
      destruct (split_cons "," s) as (p & ps & Hsplit). rewrite Hsplit in *.
      rewrite Forall_cons in IH1, IH2. rewrite Forall_cons. simpl.
      rewrite !andb_true_iff. split.
      * intros [[Hws Hp] Hps]. split; [done|]. by apply IH1.
      * intros [Hws [Hp Hps]%IH2]. by split.
Qed.

Lemma origins_none (envOrigin : option string) :
  origins envOrigin = []
  ↔ every (λ c, isWhiteSpace c || Ascii.eqb c ",")
      (default "" envOrigin) = true.
Proof.
  rewrite <- pieces_blank. unfold origins.
  generalize (split "," (default "" envOrigin)). intros pieces.
  induction pieces as [|p ps IH]; [by split; [intros _; apply Forall_nil_2|]|].
  rewrite fmap_cons, filter_cons, Forall_cons, <- IH, <- trim_blank.
  destruct (decide (truthyStr (trim p) = true)) as [Hp|Hp].
  - split; [done|]. intros [Hempty _]. rewrite Hempty in Hp. done.
  - apply not_true_is_false, truthyStr_false in Hp. tauto.
Qed.

(** X2.  Every origin is allowed, the list being [["*"]], exactly when
    [ORIGIN] names no origin: when it is not set, or holds nothing but
    white space and commas.  Otherwise the list is the trimmed, non-empty
    pieces of [ORIGIN] between its commas, in order. *)
Theorem corsOrigins_default (envOrigin : option string) :
  (origins envOrigin = []
   ↔ every (λ c, isWhiteSpace c || Ascii.eqb c ",")
       (default "" envOrigin) = true) ∧
  (origins envOrigin = [] → corsOrigins envOrigin = ["*"]) ∧
  (origins envOrigin ≠ [] → corsOrigins envOrigin = origins envOrigin) ∧
  corsOrigins None = ["*"].
Proof.
  split_and!.
  - apply origins_none.
  - unfold corsOrigins. by intros ->.
  - unfold corsOrigins. by destruct (origins envOrigin).
  - reflexivity.
Qed.

(** X3.  A non-empty list of origins, each non-empty, trimmed and free of
    commas, is read back as it is from the string that joins it with
    [", "]: the format of the line the module prints. *)
Theorem corsOrigins_reads_back (l : list string) :
  l ≠ [] → Forall cleanOrigin l →
  corsOrigins (Some (joinWith ", " l)) = l.
Proof.
  intros Hne Hclean. unfold corsOrigins. rewrite origins_joined by done.
  by destruct l.
Qed.

Lemma corsOrigins_reads_back_witness :
  corsOrigins (Some "http://localhost:5173, https://vidsync.app")
  = ["http://localhost:5173"; "https://vidsync.app"].
Proof.
  apply (corsOrigins_reads_back
           ["http://localhost:5173"; "https://vidsync.app"]).
  - discriminate.
  - repeat (apply Forall_cons; split; [by split_and!|]). apply Forall_nil_2.
Defined.

(** X4.  The origins the module prints are the origins it allows: reading
    the printed list back as [ORIGIN] gives the same list. *)
Theorem corsOrigins_printed_reads_back (envOrigin : option string) :
  corsOrigins (Some (joinWith ", " (corsOrigins envOrigin)))
  = corsOrigins envOrigin.
Proof.
  destruct (corsOrigins_clean envOrigin) as [Hne Hclean].
  unfold corsOrigins at 1. rewrite origins_joined by done.
  by destruct (corsOrigins envOrigin).
Qed.

(** ** Joining, leaving and what remains *)

Lemma without_joined (sid uid : string) (users : list OnlineUser) :
  sid ∉ socketIds users →
  without sid (users ++ [{| socketId := sid; userId := uid |}]) = users.
Proof.
  intros Hout. unfold without. rewrite filter_app.
  fold (without sid users). rewrite without_absent by done.
  rewrite filter_cons. simpl.
  destruct (decide (sid ≠ sid)); [done|]. by rewrite app_nil_r.
Qed.

Lemma members_set_onlineUsers (f : list OnlineUser → list OnlineUser)
    (st : Stores) (room : string) :
  members (set_onlineUsers f st) room = members st room.
Proof. reflexivity. Qed.

Lemma members_own (st : Stores) (room : string) :
  members st room ≠ [] → roomValue st room = Members (members st room).
Proof.
  unfold roomValue, members. by destruct (roomUsers st !! room).
Qed.

Lemma listed_own (st : Stores) (room sid : string) :
  sid ∈ socketIds (members st room) →
  roomValue st room = Members (members st room).
Proof.
  intros Hin. apply members_own. intros Hnil. rewrite Hnil in Hin.
  by apply elem_of_nil in Hin.
Qed.

(** The first join of a room, path by path. *)
Lemma first_join (h : Host) (sid : string)
    (roomRaw userPayload : JsVal) (room uid : string) (st : Stores) :
  normalize roomRaw = Normal room → room ≠ "" → inherited room = false →
  resolveUid h sid userPayload = Normal uid →
  sid ∉ socketIds (members st room) →
  ∃ st',
    onJoinRoom h sid roomRaw userPayload st
    = (Normal tt, st',
       [SocketJoin sid room;
        EmitTo (JStr room) "usersOnline"
          (PUsers (members st room
                   ++ [{| socketId := sid; userId := uid |}]))]) ∧
    members st' room
    = members st room ++ [{| socketId := sid; userId := uid |}] ∧
    (∀ other, other ≠ room → members st' other = members st other) ∧
    onlineUsers st' = onlineUsers st ∧
    dataOf st' sid = {| data_room := Some room; data_userId := Some uid |}.
Proof.
  intros Hroom Hname%truthyStr_true Hplain Huid Hout%findUser_None.
  eexists. rewrite onJoinRoom_run, Hroom, Hname. cbv zeta.
  rewrite Huid, roomValue_plain, Hout by done. split_and!.
  - reflexivity.
  - by rewrite members_set_data, members_set_room.
  - intros other Hother.
    by rewrite members_set_data, members_set_room_ne, members_set_data.
  - reflexivity.
  - by rewrite dataOf_set_data, dataOf_set_room, dataOf_set_data.
Qed.

(** X5.  A connection that joins a room in which it has no entry is put
    at the end of the room's member sequence, behind the members already
    there, with the resolved user id; the room is sent exactly that
    sequence, the other rooms are untouched, and [socket.data] records the
    room and the user id. *)
Theorem joinRoom_first_join_appends (h : Host) (sid : string)
    (roomRaw userPayload : JsVal) (room uid : string) (st : Stores) :
  normalize roomRaw = Normal room → room ≠ "" → inherited room = false →
  resolveUid h sid userPayload = Normal uid →
  sid ∉ socketIds (members st room) →
  ∃ st',
    onJoinRoom h sid roomRaw userPayload st
    = (Normal tt, st',
       [SocketJoin sid room;
        EmitTo (JStr room) "usersOnline"
          (PUsers (members st room
                   ++ [{| socketId := sid; userId := uid |}]))]) ∧
    members st' room
    = members st room ++ [{| socketId := sid; userId := uid |}] ∧
    (∀ other, other ≠ room → members st' other = members st other) ∧
    onlineUsers st' = onlineUsers st ∧
    dataOf st' sid = {| data_room := Some room; data_userId := Some uid |}.
Proof. apply first_join. Qed.

Lemma joinRoom_first_join_appends_witness :
  ∃ st',
    onJoinRoom node "s3" (JStr "lobby") (JObj [("id", JNum 7)]) lobby
    = (Normal tt, st',
       [SocketJoin "s3" "lobby";
        EmitTo (JStr "lobby") "usersOnline"
          (PUsers (members lobby "lobby"
                   ++ [{| socketId := "s3"; userId := "7" |}]))]) ∧
    members st' "lobby"
    = members lobby "lobby" ++ [{| socketId := "s3"; userId := "7" |}] ∧
    (∀ other, other ≠ "lobby" → members st' other = members lobby other) ∧
    onlineUsers st' = onlineUsers lobby ∧
    dataOf st' "s3" = {| data_room := Some "lobby"; data_userId := Some "7" |}.
Proof.
  apply (joinRoom_first_join_appends node "s3" (JStr "lobby")
           (JObj [("id", JNum 7)]) "lobby" "7" lobby);
    [reflexivity|discriminate|reflexivity|reflexivity|].
  vm_compute. intros Hin.
  repeat (apply elem_of_cons in Hin as [Hin|Hin]; [discriminate Hin|]).
  by apply elem_of_nil in Hin.
Defined.

(** X6.  A [joinRoom] that completes, for a non-empty room name and by a
    connection that had no entry in the room, is undone by a [leaveRoom]
    of the same room: the [leaveRoom] completes, sends the room the
    sequence it had before the join, and leaves every room and
    [onlineUsers] as they were before the join; [socket.data] ends
    without room and user id. *)
Theorem joinRoom_then_leaveRoom (h : Host) (sid : string)
    (roomRaw userPayload : JsVal) (room : string) (st st1 : Stores)
    (t1 : list Act) :
  normalize roomRaw = Normal room → room ≠ "" →
  sid ∉ socketIds (members st room) →
  onJoinRoom h sid roomRaw userPayload st = (Normal tt, st1, t1) →
  ∃ st2,
    onLeaveRoom sid roomRaw st1
    = (Normal tt, st2,
       [SocketLeave sid room;
        EmitTo (JStr room) "usersOnline" (PUsers (members st room))]) ∧
    (∀ r, members st2 r = members st r) ∧
    onlineUsers st2 = onlineUsers st ∧
    dataOf st2 sid = {| data_room := None; data_userId := None |}.
Proof.
  intros Hroom Hname%truthyStr_true Hout%findUser_None.
  rewrite onJoinRoom_run, Hroom, Hname. cbv zeta.
  destruct (resolveUid h sid userPayload) as [uid|]; [|done].
  destruct (roomValue st room) as [users|] eqn:Husers; [|done].
  apply roomValue_members in Husers. subst users. rewrite Hout.
  intros [= <- _].
  eexists. rewrite onLeaveRoom_run, Hroom, Hname.
  erewrite roomValue_own; [|simpl; by rewrite lookup_insert_eq].
  rewrite without_joined by by apply findUser_None.
  split; [reflexivity|]. split_and!.
  - intros r. rewrite !members_set_data.
    destruct (decide (r = room)) as [->|Hne].
    + apply members_set_room.
    + by rewrite members_set_room_ne, members_set_data, members_set_room_ne,
        members_set_data.
  - reflexivity.
  - by rewrite !dataOf_set_data.
Qed.

Lemma joinRoom_then_leaveRoom_witness :
  ∃ st2,
    onLeaveRoom "s3" (JStr "lobby")
      (onJoinRoom node "s3" (JStr "lobby") JUndefined lobby).1.2
    = (Normal tt, st2,
       [SocketLeave "s3" "lobby";
        EmitTo (JStr "lobby") "usersOnline" (PUsers (members lobby "lobby"))]) ∧
    (∀ r, members st2 r = members lobby r) ∧
    onlineUsers st2 = onlineUsers lobby ∧
    dataOf st2 "s3" = {| data_room := None; data_userId := None |}.
Proof.
  apply (joinRoom_then_leaveRoom node "s3" (JStr "lobby") JUndefined
           "lobby" lobby _
           (onJoinRoom node "s3" (JStr "lobby") JUndefined lobby).2);
    [reflexivity|discriminate| |reflexivity].
  vm_compute. intros Hin.
  repeat (apply elem_of_cons in Hin as [Hin|Hin]; [discriminate Hin|]).
  by apply elem_of_nil in Hin.
Defined.

Lemma stores_eq (st st' : Stores) :
  onlineUsers st' = onlineUsers st → roomUsers st' = roomUsers st →
  sockets st' = sockets st → st' = st.
Proof. destruct st, st'; simpl. by intros -> -> ->. Qed.

(** X7.  [leaveRoom] is idempotent: a second [leaveRoom] of the same room
    by the same connection completes, leaves the stores exactly as the
    first one left them, and makes the same calls with the same member
    sequence. *)
Theorem leaveRoom_twice (sid : string) (roomRaw : JsVal) (st st1 : Stores)
    (t1 : list Act) :
  onLeaveRoom sid roomRaw st = (Normal tt, st1, t1) →
  onLeaveRoom sid roomRaw st1 = (Normal tt, st1, t1).
Proof.
  rewrite !onLeaveRoom_run.
  destruct (normalize roomRaw) as [room|]; [|done].
  destruct (truthyStr room); [|by intros [= <- <-]].
  destruct (roomValue st room) as [users|] eqn:Husers; [|done].
  intros [= <- <-].
  rewrite (roomValue_own _ room (without sid users)).
  2:{ simpl. by rewrite lookup_insert_eq. }
  assert (Hagain : without sid (without sid users) = without sid users).
  { apply without_absent, not_in_without. }
  rewrite Hagain. do 2 f_equal.
  apply stores_eq; simpl; [done|by rewrite insert_insert_eq|].
  rewrite !dataOf_set_data. simpl. by rewrite !insert_insert_eq.
Qed.

Lemma leaveRoom_twice_witness :
  ∃ st1 t1,
    onLeaveRoom "s1" (JStr "lobby") lobby = (Normal tt, st1, t1) ∧
    onLeaveRoom "s1" (JStr "lobby") st1 = (Normal tt, st1, t1) ∧
    members st1 "lobby" = [{| socketId := "s2"; userId := "s2" |}].
Proof.
  exists (onLeaveRoom "s1" (JStr "lobby") lobby).1.2,
         (onLeaveRoom "s1" (JStr "lobby") lobby).2.
  split; [reflexivity|]. split; [|reflexivity].
  apply (leaveRoom_twice "s1" (JStr "lobby") lobby). reflexivity.
Defined.

(** X8.  [joinRoom] writes one room only: whether it completes or throws,
    every other room keeps its member sequence, so a connection that
    joins a second room is not taken out of the first, and the handler
    never calls [socket.leave]. *)
Theorem joinRoom_keeps_other_rooms (h : Host) (sid : string)
    (roomRaw userPayload : JsVal) (room : string) (st st' : Stores)
    (c : Completion unit) (t : list Act) :
  normalize roomRaw = Normal room →
  onJoinRoom h sid roomRaw userPayload st = (c, st', t) →
  (∀ other, other ≠ room → members st' other = members st other) ∧
  (∀ s r, SocketLeave s r ∉ t).
Proof.
  intros Hroom. rewrite onJoinRoom_run, Hroom. cbv zeta.
  destruct (truthyStr room);
    [destruct (resolveUid h sid userPayload);
       [destruct (roomValue st room)|]|];
    intros [= <- <- <-]; (split; [|intros s r Hin; not_called Hin]);
    intros other Hother; try reflexivity.
  by rewrite members_set_data, members_set_room_ne, members_set_data.
Qed.

Lemma joinRoom_keeps_other_rooms_witness :
  members (onJoinRoom node "s1" (JStr "lounge") (JStr "bob") lobby).1.2 "lobby"
  = members lobby "lobby".
Proof.
  destruct (joinRoom_keeps_other_rooms node "s1" (JStr "lounge") (JStr "bob")
              "lounge" lobby
              (onJoinRoom node "s1" (JStr "lounge") (JStr "bob") lobby).1.2
              (onJoinRoom node "s1" (JStr "lounge") (JStr "bob") lobby).1.1
              (onJoinRoom node "s1" (JStr "lounge") (JStr "bob") lobby).2)
    as [Hothers _]; [reflexivity..|].
  apply Hothers. discriminate.
Defined.

(** X9.  A connection listed in room [A] that joins a different room [B]
    and then disconnects is removed from [B] and from [onlineUsers], and
    stays listed in [A]: [disconnect] clears only the room that
    [socket.data] records, which is the room joined last. *)
Theorem second_join_then_disconnect (h : Host) (sid : string)
    (roomRaw userPayload : JsVal) (roomA roomB : string)
    (st st1 : Stores) (t1 : list Act) :
  sid ∈ socketIds (members st roomA) →
  normalize roomRaw = Normal roomB → roomB ≠ "" → roomB ≠ roomA →
  onJoinRoom h sid roomRaw userPayload st = (Normal tt, st1, t1) →
  ∃ st2,
    onDisconnect sid st1
    = (Normal tt, st2,
       [EmitTo (JStr roomB) "usersOnline" (PUsers (members st2 roomB));
        EmitAll "usersOnline" (PUsers (onlineUsers st2))]) ∧
    sid ∈ socketIds (members st2 roomA) ∧
    (sid ∉ socketIds (members st2 roomB)) ∧
    (sid ∉ socketIds (onlineUsers st2)).
Proof.
  intros HinA Hroom Hname%truthyStr_true Hne.
  rewrite onJoinRoom_run, Hroom, Hname. cbv zeta.
  destruct (resolveUid h sid userPayload) as [uid|]; [|done].
  destruct (roomValue st roomB) as [users|] eqn:Husers; [|done].
  intros [= <- _].
  eexists. rewrite onDisconnect_run. cbv zeta.
  rewrite dataOf_set_data, dataOf_set_room, dataOf_set_data. simpl data_room.
  cbv beta iota. rewrite Hname.
  erewrite roomValue_own; [|simpl; by rewrite lookup_insert_eq].
  split_and!.
  - apply (f_equal2 pair); [reflexivity|]. by rewrite members_set_room.
  - rewrite members_set_room_ne, members_set_onlineUsers, members_set_data,
      members_set_room_ne, members_set_data by done.
    exact HinA.
  - rewrite members_set_room. apply not_in_without.
  - simpl. apply not_in_without.
Qed.

Lemma second_join_then_disconnect_witness :
  ∃ st2,
    onDisconnect "s1"
      (onJoinRoom node "s1" (JStr "lounge") (JStr "bob") lobby).1.2
    = (Normal tt, st2,
       [EmitTo (JStr "lounge") "usersOnline" (PUsers (members st2 "lounge"));
        EmitAll "usersOnline" (PUsers (onlineUsers st2))]) ∧
    "s1" ∈ socketIds (members st2 "lobby") ∧
    ("s1" ∉ socketIds (members st2 "lounge")) ∧
    ("s1" ∉ socketIds (onlineUsers st2)).
Proof.
  apply (second_join_then_disconnect node "s1" (JStr "lounge") (JStr "bob")
           "lobby" "lounge" lobby _
           (onJoinRoom node "s1" (JStr "lounge") (JStr "bob") lobby).2).
  - vm_compute. apply list_elem_of_here.
  - reflexivity.
  - discriminate.
  - discriminate.
  - reflexivity.
Defined.

(** X10.  A [leaveRoom] that completes, for a non-empty room name other
    than the room a connection is listed in, erases the room that
    [socket.data] records; a [disconnect] that follows sends only the
    broadcast to everybody and leaves the connection listed in the room
    it was a member of. *)
Theorem leave_other_room_then_disconnect (sid : string) (roomRaw : JsVal)
    (roomA roomB : string) (st st1 : Stores) (t1 : list Act) :
  sid ∈ socketIds (members st roomA) →
  normalize roomRaw = Normal roomB → roomB ≠ "" → roomB ≠ roomA →
  onLeaveRoom sid roomRaw st = (Normal tt, st1, t1) →
  data_room (dataOf st1 sid) = None ∧
  ∃ st2,
    onDisconnect sid st1
    = (Normal tt, st2, [EmitAll "usersOnline" (PUsers (onlineUsers st2))]) ∧
    members st2 roomA = members st roomA ∧
    sid ∈ socketIds (members st2 roomA).
Proof.
  intros HinA Hroom Hname%truthyStr_true Hne.
  rewrite onLeaveRoom_run, Hroom, Hname.
  destruct (roomValue st roomB) as [users|]; [|done].
  intros [= <- _].
  split; [by rewrite !dataOf_set_data|].
  eexists. rewrite onDisconnect_run. cbv zeta.
  rewrite !dataOf_set_data. simpl data_room. cbv beta iota.
  split; [apply (f_equal2 pair); reflexivity|].
  rewrite members_set_onlineUsers, !members_set_data, members_set_room_ne
    by done.
  by split.
Qed.

Lemma leave_other_room_then_disconnect_witness :
  data_room
    (dataOf (onLeaveRoom "s1" (JStr "lounge") lobby).1.2 "s1") = None ∧
  ∃ st2,
    onDisconnect "s1" (onLeaveRoom "s1" (JStr "lounge") lobby).1.2
    = (Normal tt, st2, [EmitAll "usersOnline" (PUsers (onlineUsers st2))]) ∧
    members st2 "lobby" = members lobby "lobby" ∧
    "s1" ∈ socketIds (members st2 "lobby").
Proof.
  apply (leave_other_room_then_disconnect "s1" (JStr "lounge")
           "lobby" "lounge" lobby _
           (onLeaveRoom "s1" (JStr "lounge") lobby).2).
  - vm_compute. apply list_elem_of_here.
  - reflexivity.
  - discriminate.
  - discriminate.
  - reflexivity.
Defined.

(** X11.  No handler removes an entry of [roomUsers]: whether it completes
    or throws, every room name that has an entry keeps one, so a room
    whose last member left stays in the registry with an empty
    sequence. *)
Theorem roomUsers_never_shrinks (h : Host) (ev : Event) (st st' : Stores)
    (c : Completion unit) (t : list Act) (room : string) :
  dispatch h ev st = (c, st', t) →
  is_Some (roomUsers st !! room) → is_Some (roomUsers st' !! room).
Proof.
  intros Hrun Hroom.
  assert (Hset : ∀ r users,
    is_Some (roomUsers (set_room r users st) !! room)).
  { intros r users. simpl. rewrite lookup_insert.
    destruct (decide (r = room)); simpl; [by eauto|done]. }
  destruct ev as [sid|sid roomRaw userPayload|sid roomRaw|sid payload now|sid].
  - by injection Hrun as _ <- _.
  - simpl in Hrun. rewrite onJoinRoom_run in Hrun. cbv zeta in Hrun.
    destruct (normalize roomRaw) as [r|];
      [destruct (truthyStr r);
         [destruct (resolveUid h sid userPayload);
            [destruct (roomValue st r)|]|]|];
      injection Hrun as _ <- _; try done. apply Hset.
  - simpl in Hrun. rewrite onLeaveRoom_run in Hrun.
    destruct (normalize roomRaw) as [r|];
      [destruct (truthyStr r); [destruct (roomValue st r)|]|];
      injection Hrun as _ <- _; try done. apply Hset.
  - apply chat_keeps_stores in Hrun. by subst.
  - unfold dispatch, bind in Hrun. rewrite onDisconnect_run in Hrun.
    cbv zeta in Hrun.
    destruct (data_room (dataOf st sid)) as [r|];
      [destruct (truthyStr r); [destruct (roomValue st r)|]|];
      simpl in Hrun; injection Hrun as _ <- _; try done. apply (Hset r).
Qed.

Lemma roomUsers_never_shrinks_witness :
  is_Some
    (roomUsers
       (onLeaveRoom "s2" (JStr "lobby")
          (onLeaveRoom "s1" (JStr "lobby") lobby).1.2).1.2 !! "lobby") ∧
  members
    (onLeaveRoom "s2" (JStr "lobby")
       (onLeaveRoom "s1" (JStr "lobby") lobby).1.2).1.2 "lobby" = [].
Proof.
  split; [|reflexivity].
  apply (roomUsers_never_shrinks node (LeaveRoom "s2" (JStr "lobby"))
           (onLeaveRoom "s1" (JStr "lobby") lobby).1.2 _
           (Normal tt)
           (onLeaveRoom "s2" (JStr "lobby")
              (onLeaveRoom "s1" (JStr "lobby") lobby).1.2).2 "lobby").
  - reflexivity.
  - by eexists.
Defined.

(** ** Names and identities in the registry *)

Lemma normalize_trimmed (raw : JsVal) (room : string) :
  normalize raw = Normal room → trim room = room.
Proof.
  unfold normalize, mapC, thenC.
  destruct (toStringMethod _); [|done]. intros [= <-]. apply trim_idem.
Qed.

Lemma resolveUid_named (h : Host) (sid : string) (userPayload : JsVal)
    (uid : string) :
  resolveUid h sid userPayload = Normal uid → sid ≠ "" → uid ≠ "".
Proof.
  unfold resolveUid, thenC.
  destruct (if negb (truthy userPayload) then _ else _) as [first|]; [|done].
  intros [= <-] Hsid.
  destruct (truthyStr first) eqn:Hfirst; simpl; [|done].
  by apply truthyStr_true.
Qed.

Lemma joined_member (sid uid : string) (users : list OnlineUser)
    (u : OnlineUser) :
  u ∈ match findUser sid users with
      | Some (i, _) => <[i := {| socketId := sid; userId := uid |}]> users
      | None => users ++ [{| socketId := sid; userId := uid |}]
      end →
  u = {| socketId := sid; userId := uid |} ∨ u ∈ users.
Proof.
  destruct (findUser sid users) as [[i m]|].
  - intros (j & Hj)%list_elem_of_lookup.
    apply list_lookup_insert_Some in Hj as [(_ & <- & _)|[_ Hj]]; [by left|].
    right. apply list_elem_of_lookup. by exists j.
  - intros [Hin|Hin%list_elem_of_singleton]%elem_of_app; [by right|by left].
Qed.

Lemma joined_entry (sid uid : string) (users : list OnlineUser) :
  {| socketId := sid; userId := uid |}
  ∈ match findUser sid users with
    | Some (i, _) => <[i := {| socketId := sid; userId := uid |}]> users
    | None => users ++ [{| socketId := sid; userId := uid |}]
    end.
Proof.
  destruct (findUser sid users) as [[i m]|] eqn:Hfind.
  - apply findUser_Some in Hfind as [Hi _].
    apply list_elem_of_insert. by eapply lookup_lt_Some.
  - apply elem_of_app. right. by apply list_elem_of_singleton.
Qed.

Lemma joined_kept (sid uid : string) (users : list OnlineUser)
    (u : OnlineUser) :
  u ∈ users → socketId u ≠ sid →
  u ∈ match findUser sid users with
      | Some (i, _) => <[i := {| socketId := sid; userId := uid |}]> users
      | None => users ++ [{| socketId := sid; userId := uid |}]
      end.
Proof.
  intros Hin Hother. destruct (findUser sid users) as [[i m]|] eqn:Hfind.
  - apply findUser_Some in Hfind as [Hi Hm].
    apply list_elem_of_lookup in Hin as (j & Hj).
    apply list_elem_of_lookup. exists j.
    rewrite list_lookup_insert_ne; [done|]. intros ->. congruence.
  - apply elem_of_app. by left.
Qed.

Lemma without_member (sid : string) (users : list OnlineUser) (u : OnlineUser) :
  u ∈ without sid users ↔ socketId u ≠ sid ∧ u ∈ users.
Proof.
  unfold without. apply (list_elem_of_filter (λ v, socketId v ≠ sid)).
Qed.

Lemma all_members_same (P : OnlineUser → Prop) (st st' : Stores) :
  roomUsers st' = roomUsers st → all_members P st → all_members P st'.
Proof. intros Hsame Hall room u. unfold members. rewrite Hsame. apply Hall. Qed.

Lemma all_members_set_room (P : OnlineUser → Prop) (st st' : Stores)
    (room : string) (users : list OnlineUser) :
  roomUsers st' = <[room := users]> (roomUsers st) →
  Forall P users → all_members P st → all_members P st'.
Proof.
  intros Hset Husers Hall r u. unfold members. rewrite Hset, lookup_insert.
  destruct (decide (room = r)); simpl; [|apply Hall].
  rewrite Forall_forall in Husers. apply Husers.
Qed.

Section Registry.

Context (h : Host).

(** A property of entries that holds of every entry [joinRoom] can make
    holds of every entry a handler leaves in a room. *)
Lemma dispatch_all_members (P : OnlineUser → Prop) (ev : Event)
    (st st' : Stores) (c : Completion unit) (t : list Act) :
  (∀ sid userPayload uid,
     resolveUid h sid userPayload = Normal uid →
     P {| socketId := sid; userId := uid |}) →
  dispatch h ev st = (c, st', t) → all_members P st → all_members P st'.
Proof.
  intros Hnew Hrun Hall.
  assert (Hless : ∀ sid room,
    Forall P (without sid (members st room))).
  { intros sid room. apply Forall_forall. intros u [_ Hu]%without_member.
    by apply (Hall room). }
  destruct ev as [sid|sid roomRaw userPayload|sid roomRaw|sid payload now|sid].
  - injection Hrun as _ <- _. by apply (all_members_same P st).
  - simpl in Hrun. rewrite onJoinRoom_run in Hrun. cbv zeta in Hrun.
    destruct (normalize roomRaw) as [room|]; [|by simplify_eq].
    destruct (truthyStr room); [|by simplify_eq].
    destruct (resolveUid h sid userPayload) as [uid|] eqn:Huid;
      [|simplify_eq; by apply (all_members_same P st)].
    destruct (roomValue st room) as [users|] eqn:Husers;
      [|simplify_eq; by apply (all_members_same P st)].
    apply roomValue_members in Husers. subst users. simplify_eq.
    eapply (all_members_set_room P st); [reflexivity| |done].
    apply Forall_forall. intros u [->|Hu]%joined_member.
    + by eapply Hnew.
    + by apply (Hall room).
  - simpl in Hrun. rewrite onLeaveRoom_run in Hrun.
    destruct (normalize roomRaw) as [room|]; [|by simplify_eq].
    destruct (truthyStr room); [|by simplify_eq].
    destruct (roomValue st room) as [users|] eqn:Husers; [|by simplify_eq].
    apply roomValue_members in Husers. subst users. simplify_eq.
    by eapply (all_members_set_room P st); [reflexivity| |done].
  - apply chat_keeps_stores in Hrun. by subst.
  - unfold dispatch, bind in Hrun. rewrite onDisconnect_run in Hrun.
    cbv zeta in Hrun.
    destruct (data_room (dataOf st sid)) as [r|];
      [|simpl in Hrun; simplify_eq; by apply (all_members_same P st)].
    destruct (truthyStr r);
      [|simpl in Hrun; simplify_eq; by apply (all_members_same P st)].
    destruct (roomValue st r) as [users|] eqn:Husers;
      [|simpl in Hrun; simplify_eq; by apply (all_members_same P st)].
    apply roomValue_members in Husers. subst users.
    simpl in Hrun. simplify_eq.
    by eapply (all_members_set_room P st); [reflexivity| |done].
Qed.

Lemma visited_all_members (P : OnlineUser → Prop) (st : Stores) :
  (∀ sid userPayload uid,
     resolveUid h sid userPayload = Normal uid →
     P {| socketId := sid; userId := uid |}) →
  visited h st → all_members P st.
Proof.
  intros Hnew. induction 1 as [|st ev c st' t _ IH Hrun].
  - intros room u. unfold members; simpl. rewrite lookup_empty.
    by intros ?%elem_of_nil.
  - by eapply dispatch_all_members.
Qed.

End Registry.

(** X12.  After any sequence of events, whether their handlers completed
    or threw, no member of any room has an empty user id, unless its
    socket id is empty: an identity that resolves to the empty string is
    replaced by the socket id before it is stored (line 74). *)
Theorem members_are_named (h : Host) (st : Stores) (room : string)
    (u : OnlineUser) :
  visited h st → u ∈ members st room → socketId u ≠ "" → userId u ≠ "".
Proof.
  intros Hst Hin. revert room u Hin.
  apply (visited_all_members h (λ u, socketId u ≠ "" → userId u ≠ "")); [|done].
  intros sid userPayload uid Huid. simpl. by apply (resolveUid_named h sid userPayload).
Qed.

Lemma members_are_named_witness :
  userId {| socketId := "s2"; userId := "s2" |} ≠ "".
Proof.
  apply (members_are_named node lobby "lobby").
  - apply reachable_visited, reachable_lobby.
  - vm_compute. apply list_elem_of_further, list_elem_of_here.
  - discriminate.
Defined.

Lemma canonical_plain (st : Stores) (room : string) (users : list OnlineUser) :
  (∀ r, is_Some (roomUsers st !! r) →
     r ≠ "" ∧ trim r = r ∧ inherited r = false) →
  roomValue st room = Members users → inherited room = false.
Proof.
  intros Hkeys. unfold roomValue.
  destruct (roomUsers st !! room) as [l|] eqn:Hl.
  - intros _. by apply Hkeys; eauto.
  - by destruct (inherited room).
Qed.

Lemma canonical_set_room (st : Stores) (room : string)
    (users : list OnlineUser) (ru : gmap string (list OnlineUser)) :
  (∀ r, is_Some (roomUsers st !! r) →
     r ≠ "" ∧ trim r = r ∧ inherited r = false) →
  room ≠ "" → trim room = room → inherited room = false →
  ru = <[room := users]> (roomUsers st) →
  ∀ r, is_Some (ru !! r) → r ≠ "" ∧ trim r = r ∧ inherited r = false.
Proof.
  intros Hkeys Hname Htrim Hplain -> r. rewrite lookup_insert.
  destruct (decide (room = r)) as [<-|]; simpl; [done|]. apply Hkeys.
Qed.

Section Keys.

Context (h : Host).

Lemma dispatch_keys_canonical (ev : Event) (st st' : Stores)
    (c : Completion unit) (t : list Act) :
  dispatch h ev st = (c, st', t) → keys_canonical st → keys_canonical st'.
Proof.
  intros Hrun [Hkeys Hdata].
  destruct ev as [sid|sid roomRaw userPayload|sid roomRaw|sid payload now|sid].
  - injection Hrun as _ <- _. split; [exact Hkeys|].
    intros s r. unfold dataOf at 1; simpl. rewrite lookup_insert.
    destruct (decide (sid = s)); [done|]. apply Hdata.
  - simpl in Hrun. rewrite onJoinRoom_run in Hrun. cbv zeta in Hrun.
    destruct (normalize roomRaw) as [room|] eqn:Hroom; [|by simplify_eq].
    apply normalize_trimmed in Hroom.
    destruct (truthyStr room) eqn:Hname; [|by simplify_eq].
    apply truthyStr_true in Hname.
    assert (Hrecorded : ∀ s r,
      data_room (dataOf (set_data sid (with_room (Some room)) st) s) = Some r →
      r ≠ "" ∧ trim r = r).
    { intros s r. destruct (decide (s = sid)) as [->|Hs].
      - rewrite dataOf_set_data. simpl. by intros [= <-].
      - rewrite dataOf_set_data_ne by done. apply Hdata. }
    destruct (resolveUid h sid userPayload) as [uid|];
      [|simplify_eq; split; [exact Hkeys|exact Hrecorded]].
    destruct (roomValue st room) as [users|] eqn:Husers;
      [|simplify_eq; split; [exact Hkeys|exact Hrecorded]].
    apply (canonical_plain st room users Hkeys) in Husers as Hplain.
    simplify_eq. split.
    + by eapply (canonical_set_room st room).
    + intros s r. destruct (decide (s = sid)) as [->|Hs].
      * rewrite dataOf_set_data, dataOf_set_room, dataOf_set_data. simpl.
        by intros [= <-].
      * rewrite dataOf_set_data_ne, dataOf_set_room, dataOf_set_data_ne
          by done. apply Hdata.
  - simpl in Hrun. rewrite onLeaveRoom_run in Hrun.
    destruct (normalize roomRaw) as [room|] eqn:Hroom; [|by simplify_eq].
    apply normalize_trimmed in Hroom.
    destruct (truthyStr room) eqn:Hname; [|by simplify_eq].
    apply truthyStr_true in Hname.
    destruct (roomValue st room) as [users|] eqn:Husers; [|by simplify_eq].
    apply (canonical_plain st room users Hkeys) in Husers as Hplain.
    simplify_eq. split.
    + by eapply (canonical_set_room st room).
    + intros s r. destruct (decide (s = sid)) as [->|Hs].
      * by rewrite !dataOf_set_data.
      * rewrite !dataOf_set_data_ne, dataOf_set_room by done. apply Hdata.
  - apply chat_keeps_stores in Hrun. by subst.
  - unfold dispatch, bind in Hrun. rewrite onDisconnect_run in Hrun.
    cbv zeta in Hrun.
    assert (Hdropped : ∀ ou ru s r,
      data_room (dataOf {| onlineUsers := ou; roomUsers := ru;
                           sockets := delete sid (sockets st) |} s) = Some r →
      r ≠ "" ∧ trim r = r).
    { intros ou ru s r. unfold dataOf at 1; simpl. rewrite lookup_delete.
      destruct (decide (sid = s)); [done|]. apply Hdata. }
    destruct (data_room (dataOf st sid)) as [r|] eqn:Hr;
      [|simpl in Hrun; simplify_eq; split; [exact Hkeys|apply Hdropped]].
    destruct (Hdata sid r Hr) as [Hname Htrim].
    destruct (truthyStr r);
      [|simpl in Hrun; simplify_eq; split; [exact Hkeys|apply Hdropped]].
    destruct (roomValue st r) as [users|] eqn:Husers;
      [|simpl in Hrun; simplify_eq; split; [exact Hkeys|exact Hdata]].
    apply (canonical_plain st r users Hkeys) in Husers as Hplain.
    simpl in Hrun. simplify_eq. split; [|apply Hdropped].
    by eapply (canonical_set_room st r).
Qed.

Lemma visited_keys_canonical (st : Stores) :
  visited h st → keys_canonical st.
Proof.
  induction 1 as [|st ev c st' t _ IH Hrun].
  - split.
    + intros room. simpl. rewrite lookup_empty. by intros [? ?].
    + intros sid r. unfold dataOf; simpl. by rewrite lookup_empty.
  - by eapply dispatch_keys_canonical.
Qed.

End Keys.

(** X13.  After any sequence of events, whether their handlers completed
    or threw, every name under which [roomUsers] has an entry is a
    non-empty string without white space at either end, and none of the
    names that [Object.prototype] defines: an inherited name makes the
    handler throw before it writes the entry.  The room that a
    [socket.data] records is likewise non-empty and trimmed. *)
Theorem room_names_are_canonical (h : Host) (st : Stores) :
  visited h st →
  (∀ room, is_Some (roomUsers st !! room) →
     room ≠ "" ∧ trim room = room ∧ inherited room = false) ∧
  (∀ sid r, data_room (dataOf st sid) = Some r → r ≠ "" ∧ trim r = r).
Proof. apply visited_keys_canonical. Qed.

Lemma room_names_are_canonical_witness :
  (∀ room, is_Some (roomUsers lobby !! room) →
     room ≠ "" ∧ trim room = room ∧ inherited room = false) ∧
  (∀ sid r, data_room (dataOf lobby sid) = Some r → r ≠ "" ∧ trim r = r).
Proof.
  apply (room_names_are_canonical node lobby).
  apply reachable_visited, reachable_lobby.
Defined.

(** ** Identity fields *)

(** X14.  Among [uid], [userId], [id] the first one that is neither
    absent, [undefined] nor [null] decides alone: the later fields are not
    consulted, also when the deciding field prints as the empty string.
    An empty [uid] therefore hides a usable [userId]. *)
Theorem first_defined_field_decides (h : Host) (sid : string)
    (props : list (string * JsVal)) (v : JsVal) :
  nullish v = false →
  (ownProp props "uid" = Some v →
   resolveUid h sid (JObj props) = resolveUid h sid (JObj [("uid", v)])) ∧
  (nullish (getProp (JObj props) "uid") = true →
   ownProp props "userId" = Some v →
   resolveUid h sid (JObj props) = resolveUid h sid (JObj [("userId", v)])) ∧
  (nullish (getProp (JObj props) "uid") = true →
   nullish (getProp (JObj props) "userId") = true →
   ownProp props "id" = Some v →
   resolveUid h sid (JObj props) = resolveUid h sid (JObj [("id", v)])).
Proof.
  intros Hv. unfold resolveUid, getProp, coalesce. simpl truthy. cbv iota.
  split_and!.
  - intros ->. simpl. by rewrite Hv.
  - intros Huid ->. simpl in *. by rewrite Huid, Hv.
  - intros Huid HuserId ->. simpl in *. by rewrite Huid, HuserId, Hv.
Qed.

Lemma first_defined_field_decides_witness :
  resolveUid node "s1" (JObj [("uid", JStr ""); ("userId", JStr "bob")])
  = Abrupt ReferenceError ∧
  resolveUid node "s1" (JObj [("uid", JNull); ("userId", JStr "bob")])
  = Normal "bob".
Proof.
  split.
  - destruct (first_defined_field_decides node "s1"
                [("uid", JStr ""); ("userId", JStr "bob")] (JStr "") eq_refl)
      as [Huid _].
    rewrite Huid; reflexivity.
  - destruct (first_defined_field_decides node "s1"
                [("uid", JNull); ("userId", JStr "bob")] (JStr "bob") eq_refl)
      as (_ & HuserId & _).
    rewrite HuserId; reflexivity.
Defined.

(** ** Scope of the broadcasts *)



(** ** More on [chat:message] *)

(** X16.  [chat:message] writes no store, whatever it is given and
    however it ends; and a message it sends out has a non-empty, trimmed
    text, a user id and a timestamp that are neither [undefined] nor
    [null], a client id that is not [null], and a target that is
    truthy. *)
Theorem chat_message_is_well_formed (sid : string) (payload : JsVal)
    (now : string) (st st' : Stores) (c : Completion unit) (t : list Act) :
  onChatMessage sid payload now st = (c, st', t) →
  st' = st ∧
  ∀ target event m, EmitTo target event (PChat m) ∈ t →
    msg_message m ≠ "" ∧ trim (msg_message m) = msg_message m ∧
    nullish (msg_userId m) = false ∧ nullish (msg_timestamp m) = false ∧
    msg_clientId m ≠ JNull ∧ truthy target = true.
Proof.
  rewrite onChatMessage_run. cbv zeta.
  destruct (normalize (optMember payload "message")) as [text|] eqn:Htext;
    [|intros [= <- <- <-]; split; [done|intros ? ? ? Hin; not_called Hin]].
  apply normalize_trimmed in Htext.
  destruct (truthyStr text) eqn:Hne;
    [|intros [= <- <- <-]; split; [done|intros ? ? ? Hin; not_called Hin]].
  destruct (truthy _) eqn:Htarget;
    [|intros [= <- <- <-]; split; [done|intros ? ? ? Hin; not_called Hin]].
  destruct (toStr _) as [key|];
    [|intros [= <- <- <-]; split; [done|intros ? ? ? Hin; not_called Hin]].
  destruct (roomValue st key) as [users|];
    [|intros [= <- <- <-]; split; [done|intros ? ? ? Hin; not_called Hin]].
  intros [= <- <- <-]. split; [done|].
  intros target event m [= -> _ ->]%list_elem_of_singleton. simpl.
  split_and!; [by apply truthyStr_true|done| | | |done].
  - unfold coalesce. destruct (nullish (getProp payload "userId")) eqn:Hp;
      [|done].
    by destruct (snd <$> findUser sid users).
  - unfold coalesce. by destruct (nullish (getProp payload "timestamp")) eqn:Hp.
  - unfold coalesce.
    destruct (getProp payload "clientId"); simpl; discriminate.
Qed.

Lemma chat_message_is_well_formed_witness :
  let m := {| msg_userId := JStr "s2";
              msg_message := "hello";
              msg_timestamp := JStr "2026-01-01T00:00:00.000Z";
              msg_clientId := JUndefined |} in
  msg_message m ≠ "" ∧ trim (msg_message m) = msg_message m ∧
  nullish (msg_userId m) = false ∧ nullish (msg_timestamp m) = false ∧
  msg_clientId m ≠ JNull ∧ truthy (JStr "lobby") = true.
Proof.
  destruct (chat_message_is_well_formed "s2"
              (JObj [("message", JStr " hello "); ("clientId", JNull)])
              "2026-01-01T00:00:00.000Z" lobby lobby (Normal tt)
              (onChatMessage "s2"
                 (JObj [("message", JStr " hello "); ("clientId", JNull)])
                 "2026-01-01T00:00:00.000Z" lobby).2 eq_refl)
    as [_ Hsent].
  apply (Hsent (JStr "lobby") "chat:message"). apply list_elem_of_here.
Defined.

(** ** Room names up to white space *)

Lemma normalize_trim (s : string) :
  normalize (JStr (trim s)) = normalize (JStr s).
Proof. unfold normalize, mapC, thenC. simpl. by rewrite trim_idem. Qed.

(** X17.  White space around a room name does not matter: [joinRoom] and
    [leaveRoom] do with a string what they do with the trimmed string, so
    the two name the same room. *)
Theorem room_name_up_to_white_space (h : Host) (sid s : string)
    (userPayload : JsVal) (st : Stores) :
  onJoinRoom h sid (JStr s) userPayload st
  = onJoinRoom h sid (JStr (trim s)) userPayload st ∧
  onLeaveRoom sid (JStr s) st = onLeaveRoom sid (JStr (trim s)) st.
Proof. by rewrite !onJoinRoom_run, !onLeaveRoom_run, normalize_trim. Qed.

(** ** A handler that throws *)

(** X18.  A handler that throws has sent no broadcast and has left
    [roomUsers] as it was; [joinRoom], [leaveRoom] and [chat:message]
    have then left [onlineUsers] as it was, too. *)
Theorem thrown_handler_wrote_no_room (h : Host) (ev : Event)
    (st st' : Stores) (e : JsError) (t : list Act) :
  dispatch h ev st = (Abrupt e, st', t) →
  roomUsers st' = roomUsers st ∧
  Forall (λ a, isBroadcast a = false) t ∧
  ((∀ sid, ev ≠ Disconnect sid) → onlineUsers st' = onlineUsers st).
Proof.
  intros Hrun.
  destruct ev as [sid|sid roomRaw userPayload|sid roomRaw|sid payload now|sid].
  - discriminate Hrun.
  - simpl in Hrun. rewrite onJoinRoom_run in Hrun. cbv zeta in Hrun.
    repeat case_match; simplify_eq; split_and!; try done;
      repeat (apply Forall_cons; split; [done|]); apply Forall_nil_2.
  - simpl in Hrun. rewrite onLeaveRoom_run in Hrun.
    repeat case_match; simplify_eq; split_and!; try done;
      repeat (apply Forall_cons; split; [done|]); apply Forall_nil_2.
  - simpl in Hrun. rewrite onChatMessage_run in Hrun. cbv zeta in Hrun.
    repeat case_match; simplify_eq; split_and!; try done;
      repeat (apply Forall_cons; split; [done|]); apply Forall_nil_2.
  - unfold dispatch, bind in Hrun. rewrite onDisconnect_run in Hrun.
    cbv zeta in Hrun.
    destruct (data_room (dataOf st sid)) as [r|];
      [destruct (truthyStr r); [destruct (roomValue st r)|]|];
      simpl in Hrun; simplify_eq.
    split_and!; [done|apply Forall_nil_2|]. intros Hne. by destruct (Hne sid).
Qed.

Lemma thrown_handler_wrote_no_room_witness :
  roomUsers (onJoinRoom node "s3" (JStr "lobby") (JObj []) lobby).1.2
  = roomUsers lobby ∧
  Forall (λ a, isBroadcast a = false)
    (onJoinRoom node "s3" (JStr "lobby") (JObj []) lobby).2.
Proof.
  destruct (thrown_handler_wrote_no_room node
              (JoinRoom "s3" (JStr "lobby") (JObj [])) lobby
              (onJoinRoom node "s3" (JStr "lobby") (JObj []) lobby).1.2
              ReferenceError
              (onJoinRoom node "s3" (JStr "lobby") (JObj []) lobby).2 eq_refl)
    as (Hrooms & Hquiet & _).
  by split.
Defined.

(** ** A running server, continued *)

Section Identity.

Context (h : Host).

Lemma assigned_identity_step (ev : Event) (st st' : Stores) (t : list Act) :
  dispatch h ev st = (Normal tt, st', t) →
  assigned_identity st → assigned_identity st'.
Proof.
  intros Hrun Hid.
  destruct ev as [sid|sid roomRaw userPayload|sid roomRaw|sid payload now|sid].
  - injection Hrun as <- _. intros s r. unfold dataOf at 1 2; simpl.
    rewrite lookup_insert. destruct (decide (sid = s)); [done|]. apply Hid.
  - simpl in Hrun. rewrite onJoinRoom_run in Hrun. cbv zeta in Hrun.
    destruct (normalize roomRaw) as [room|]; [|done].
    destruct (truthyStr room); [|by simplify_eq].
    destruct (resolveUid h sid userPayload) as [uid|]; [|done].
    destruct (roomValue st room) as [users|] eqn:Husers; [|done].
    apply roomValue_members in Husers. subst users. simplify_eq.
    intros s r. rewrite members_set_data.
    destruct (decide (s = sid)) as [->|Hs].
    + rewrite dataOf_set_data, dataOf_set_room, dataOf_set_data. simpl.
      intros [= <-]. exists uid. split; [done|].
      rewrite members_set_room. apply joined_entry.
    + rewrite dataOf_set_data_ne, dataOf_set_room, dataOf_set_data_ne by done.
      intros (u & Hu & Hin)%Hid. exists u. split; [done|].
      destruct (decide (r = room)) as [->|Hne].
      * rewrite members_set_room. by apply joined_kept.
      * by rewrite members_set_room_ne.
  - simpl in Hrun. rewrite onLeaveRoom_run in Hrun.
    destruct (normalize roomRaw) as [room|]; [|done].
    destruct (truthyStr room); [|by simplify_eq].
    destruct (roomValue st room) as [users|] eqn:Husers; [|done].
    apply roomValue_members in Husers. subst users. simplify_eq.
    intros s r. rewrite !members_set_data.
    destruct (decide (s = sid)) as [->|Hs].
    + by rewrite !dataOf_set_data.
    + rewrite !dataOf_set_data_ne, dataOf_set_room by done.
      intros (u & Hu & Hin)%Hid. exists u. split; [done|].
      destruct (decide (r = room)) as [->|Hne].
      * rewrite members_set_room. by apply without_member.
      * by rewrite members_set_room_ne.
  - apply chat_keeps_stores in Hrun. by subst.
  - unfold dispatch, bind in Hrun. rewrite onDisconnect_run in Hrun.
    cbv zeta in Hrun.
    assert (Hdropped : ∀ ou ru s,
      dataOf {| onlineUsers := ou; roomUsers := ru;
                sockets := delete sid (sockets st) |} s
      = if decide (sid = s) then {| data_room := None; data_userId := None |}
        else dataOf st s).
    { intros ou ru s. unfold dataOf; simpl. rewrite lookup_delete.
      by destruct (decide (sid = s)). }
    destruct (data_room (dataOf st sid)) as [r0|];
      [destruct (truthyStr r0);
         [destruct (roomValue st r0) as [users|] eqn:Husers|]|];
      simpl in Hrun; simplify_eq; intros s r; rewrite Hdropped;
      (destruct (decide (sid = s)) as [|Hs]; [done|]);
      intros (u & Hu & Hin)%Hid; exists u; (split; [done|]); try done.
    apply roomValue_members in Husers. subst users.
    destruct (decide (r = r0)) as [->|Hne].
    + unfold members; simpl. rewrite lookup_insert_eq; simpl.
      apply without_member. split; [simpl; congruence|done].
    + unfold members; simpl. by rewrite lookup_insert_ne.
Qed.

Lemma reachable_assigned_identity (st : Stores) :
  reachable h st → assigned_identity st.
Proof.
  induction 1 as [|st ev st' t _ IH _ Hrun].
  - intros sid r. unfold dataOf; simpl. by rewrite lookup_empty.
  - by eapply assigned_identity_step.
Qed.

End Identity.

(** X19.  In a running server [onlineUsers] lists exactly the connections
    the transport holds, each once: a connection is listed from its
    [connection] event to its [disconnect]. *)
Theorem online_users_are_the_live_sockets (h : Host) (st : Stores) :
  reachable h st →
  NoDup (socketIds (onlineUsers st)) ∧
  ∀ sid, sid ∈ socketIds (onlineUsers st) ↔ connected st sid = true.
Proof.
  intros [[Hnd Hlive] _]%reachable_consistent. split; [exact Hnd|].
  intros sid. rewrite connected_true. apply Hlive.
Qed.

Lemma online_users_are_the_live_sockets_witness :
  NoDup (socketIds (onlineUsers lobby)) ∧
  ∀ sid, sid ∈ socketIds (onlineUsers lobby) ↔ connected lobby sid = true.
Proof.
  apply (online_users_are_the_live_sockets node lobby reachable_lobby).
Defined.

(** X20.  In a running server, a connection whose [socket.data] records a
    room has exactly one entry in that room's member sequence, and the
    user id in [socket.data] is the user id of that entry. *)
Theorem recorded_room_lists_the_socket (h : Host) (st : Stores)
    (sid r : string) :
  reachable h st → data_room (dataOf st sid) = Some r →
  ∃ uid i,
    data_userId (dataOf st sid) = Some uid ∧
    members st r !! i = Some {| socketId := sid; userId := uid |} ∧
    ∀ j u, members st r !! j = Some u → socketId u = sid → j = i.
Proof.
  intros Hreach Hr.
  destruct (reachable_assigned_identity h st Hreach sid r Hr)
    as (uid & Huid & Hin).
  apply reachable_invariant in Hreach as (Hrooms & _).
  apply list_elem_of_lookup in Hin as (i & Hi).
  exists uid, i. split_and!; [done..|].
  intros j u Hj Hu.
  apply (NoDup_lookup (socketIds (members st r)) j i sid (Hrooms r));
    unfold socketIds; rewrite list_lookup_fmap.
  - by rewrite Hj; simpl; rewrite Hu.
  - by rewrite Hi.
Qed.

Lemma recorded_room_lists_the_socket_witness :
  ∃ uid i,
    data_userId (dataOf lobby "s1") = Some uid ∧
    members lobby "lobby" !! i = Some {| socketId := "s1"; userId := uid |} ∧
    ∀ j u, members lobby "lobby" !! j = Some u → socketId u = "s1" → j = i.
Proof.
  apply (recorded_room_lists_the_socket node lobby "s1" "lobby"
           reachable_lobby).
  reflexivity.
Defined.

(** X21.  In a running server, a [chat:message] with a non-empty text and
    without [room] and [userId], sent by a connection whose [socket.data]
    records a room, completes and goes to that room under the user id the
    connection joined with. *)
Theorem chat_uses_the_joined_identity (h : Host) (st : Stores)
    (sid r text now : string) (payload : JsVal) :
  reachable h st → data_room (dataOf st sid) = Some r →
  normalize (optMember payload "message") = Normal text → text ≠ "" →
  nullish (getProp payload "room") = true →
  nullish (getProp payload "userId") = true →
  ∃ uid,
    data_userId (dataOf st sid) = Some uid ∧
    onChatMessage sid payload now st
    = (Normal tt, st,
       [EmitTo (JStr r) "chat:message"
          (PChat {| msg_userId := JStr uid;
                    msg_message := text;
                    msg_timestamp := getProp payload "timestamp" ?? JStr now;
                    msg_clientId := getProp payload "clientId" ?? JUndefined |})]).
Proof.
  intros Hreach Hr Htext Hne%truthyStr_true Hnoroom Hnouser.
  destruct (reachable_assigned_identity h st Hreach sid r Hr)
    as (uid & Huid & Hin).
  apply reachable_invariant in Hreach as (Hrooms & _ & _ & Hpresent).
  destruct (Hpresent sid r Hr) as [Hname%truthyStr_true Hlisted].
  apply list_elem_of_lookup in Hin as (i & Hi).
  pose proof (findUser_unique sid _ i _ (Hrooms r) Hi eq_refl) as Hfind.
  exists uid. split; [done|].
  assert (Htarget : getProp payload "room" ?? storedRoom st sid ?? JNull
                    = JStr r).
  { unfold storedRoom, coalesce. by rewrite Hnoroom, Hr. }
  rewrite onChatMessage_run, Htext, Hne. cbv zeta. rewrite Htarget.
  simpl truthy. rewrite Hname. simpl toStr. cbv iota.
  rewrite (listed_own st r sid Hlisted), Hfind. simpl.
  unfold coalesce at 1. by rewrite Hnouser.
Qed.

Lemma chat_uses_the_joined_identity_witness :
  ∃ uid,
    data_userId (dataOf lobby "s1") = Some uid ∧
    onChatMessage "s1" (JObj [("message", JStr "hi"); ("clientId", JStr "c7")])
      "2026-01-01T00:00:00.000Z" lobby
    = (Normal tt, lobby,
       [EmitTo (JStr "lobby") "chat:message"
          (PChat {| msg_userId := JStr uid;
                    msg_message := "hi";
                    msg_timestamp := JStr "2026-01-01T00:00:00.000Z";
                    msg_clientId := JStr "c7" |})]).
Proof.
  apply (chat_uses_the_joined_identity node lobby "s1" "lobby" "hi"
           "2026-01-01T00:00:00.000Z"
           (JObj [("message", JStr "hi"); ("clientId", JStr "c7")])
           reachable_lobby);
    [reflexivity|reflexivity|discriminate|reflexivity|reflexivity].
Defined.
